(** * prefect.context: run-context propagation

    A shallow embedding of [src/prefect/context.py] together with the two
    library mechanisms it is built on:

    - [contextvars.ContextVar] (set / reset / get with restoration tokens),
    - [pydantic.BaseModel] (v1) construction and attribute assignment under
      the [Config] that [ContextModel] declares.

    The two libraries are modelled after their documented behaviour
    (CPython's [contextvars], pydantic 1.x [main.py]), only as far as
    [context.py] uses them. Python objects live in a heap indexed by address;
    every operation is a state-passing computation that either returns a
    value or raises, and a raise keeps the state reached so far. *)

From stdpp Require Import gmap strings list fin_maps sorting.
From Stdlib Require Import ZArith.

Set Default Proof Using "Type".
Open Scope Z_scope.
Open Scope nat_scope.
Open Scope string_scope.
Open Scope list_scope.

(** ** Python values and heap objects *)

Abbreviation ref := nat (only parsing).

(** The classes of the collaborators whose instances the contexts only store
    and pass through. *)
Inductive kind :=
| KFlow | KTask | KOrionClient | KBaseExecutor
| KPrefectFuture | KState | KBlockingPortal | KCancelScope.

#[global] Instance kind_eq_dec : EqDecision kind.
Proof. solve_decision. Defined.

(** The values that reach a context as a field or an argument: [None], a
    [UUID], a datetime, an instance of one of the collaborator classes, or a
    reference to a heap object (a model, a set of strings, a list, a token).
    Tags are the only strings, and they occur as elements of sets; bare
    strings, numbers and bytes are not values of the embedding. *)
Inductive value :=
| VNone
| VUUID (n : N)
| VDateTime (t : Z)
| VOpaque (k : kind) (id : nat)
| VRef (a : ref).

#[global] Instance value_eq_dec : EqDecision value.
Proof. solve_decision. Defined.

(** The three module-level context variables:
    [ContextVar("flow_run")], [ContextVar("task_run")], [ContextVar("tags")]. *)
Inductive ContextVar := var_flow_run | var_task_run | var_tags.

#[global] Instance ContextVar_eq_dec : EqDecision ContextVar.
Proof. solve_decision. Defined.

#[global] Instance ContextVar_countable : Countable ContextVar.
Proof.
  refine (inj_countable'
            (λ v, match v with
                  | var_flow_run => 0 | var_task_run => 1 | var_tags => 2
                  end)
            (λ n, match n with
                  | 0 => var_flow_run | 1 => var_task_run | _ => var_tags
                  end) _).
  by intros [].
Defined.

(** A [contextvars.Token]: the context (execution unit) and variable it was
    created for, the value the variable had before ([None] is
    [Token.MISSING]), and whether it has been consumed by [reset]. *)
Record Token := mkToken {
  tok_ctx : nat;
  tok_var : ContextVar;
  tok_oldval : option value;
  tok_used : bool
}.

Inductive class :=
| ContextModel | RunContext | FlowRunContext | TaskRunContext | TagsContext.

#[global] Instance class_eq_dec : EqDecision class.
Proof. solve_decision. Defined.

Inductive pyobj :=
| OInstance (c : class) (d : gmap string value)   (* a model and its __dict__ *)
| OSet (s : gset string)
| OList (l : list value)
| OToken (t : Token).

Inductive exn :=
| AttributeError (msg : string)
| RuntimeError (msg : string)
| ValueError (msg : string)
| TypeError (msg : string)
| ValidationError (errors : list (string * string))
| CancelledError
| UserError (n : nat).

(** ** Interpreter state

    [bindings] maps (execution unit, variable) to the value currently bound:
    each thread, and each cooperative task, runs in a Context of its own. *)
Record state := mkState {
  bindings : gmap (nat * ContextVar) value;
  heap : list pyobj;
  clock : Z
}.

Definition set_heap (h : list pyobj) (s : state) : state :=
  mkState (bindings s) h (clock s).

Definition empty_state : state := mkState ∅ [] 0%Z.

(** ** Computations that may raise *)

Inductive result (A : Type) :=
| Ok (a : A)
| Raised (e : exn).
Arguments Ok {A} a.
Arguments Raised {A} e.

Definition M (A : Type) : Type := state → state * result A.

Definition ret {A} (a : A) : M A := λ s, (s, Ok a).
Definition raise {A} (e : exn) : M A := λ s, (s, Raised e).
Definition bind {A B} (m : M A) (k : A → M B) : M B :=
  λ s, match m s with
       | (s', Ok a) => k a s'
       | (s', Raised e) => (s', Raised e)
       end.

Declare Scope py_scope.
Delimit Scope py_scope with py.
Notation "'let*' x := m 'in' k" := (bind m (λ x, k))
  (at level 10, x name, m at level 100, k at level 200) : py_scope.
Notation "m >> k" := (bind m (λ _, k))
  (at level 100, k at level 200, right associativity) : py_scope.
Open Scope py_scope.

(** Allocation appends to the heap; the new address is the old length. *)
Definition alloc (o : pyobj) : M ref :=
  λ s, (set_heap (heap s ++ [o]) s, Ok (length (heap s))).

Definition store (a : ref) (o : pyobj) : M unit :=
  λ s, (set_heap (<[a := o]> (heap s)) s, Ok tt).

(** ** contextvars *)

Module contextvars.

(** [var.get(default)] run by execution unit [u]. *)
Definition get (u : nat) (var : ContextVar) (dflt : value) : M value :=
  λ s, (s, Ok (default dflt (bindings s !! (u, var)))).

(** [var.set(x)]: binds and returns a fresh token remembering the prior
    binding. *)
Definition set (u : nat) (var : ContextVar) (x : value) : M value :=
  λ s,
    let t := mkToken u var (bindings s !! (u, var)) false in
    (mkState (<[(u, var) := x]> (bindings s)) (heap s ++ [OToken t]) (clock s),
     Ok (VRef (length (heap s)))).

(** [var.reset(token)]: the checks, in the order the interpreter makes
    them, then the restoration. There is no check that the token is the
    latest one created for the variable. *)
Definition reset (u : nat) (var : ContextVar) (token : value) : M unit :=
  λ s,
    match token with
    | VRef a =>
        match heap s !! a with
        | Some (OToken t) =>
            if tok_used t then
              (s, Raised (RuntimeError "Token has already been used once"))
            else if negb (bool_decide (tok_var t = var)) then
              (s, Raised (ValueError "Token was created by a different ContextVar"))
            else if negb (bool_decide (tok_ctx t = u)) then
              (s, Raised (ValueError "Token was created in a different Context"))
            else
              let b := match tok_oldval t with
                       | None => delete (u, var) (bindings s)
                       | Some old => <[(u, var) := old]> (bindings s)
                       end in
              let t' := mkToken (tok_ctx t) (tok_var t) (tok_oldval t) true in
              (mkState b (<[a := OToken t']> (heap s)) (clock s), Ok tt)
        | _ => (s, Raised (TypeError "expected an instance of Token"))
        end
    | _ => (s, Raised (TypeError "expected an instance of Token"))
    end.

End contextvars.

(** ** Plain object protocol *)

(** [object.__setattr__(self, name, x)] on a model: writes [self.__dict__]
    directly, without the model's own [__setattr__]. *)
Definition object_setattr (self : ref) (name : string) (x : value) : M unit :=
  λ s,
    match heap s !! self with
    | Some (OInstance c d) =>
        (set_heap (<[self := OInstance c (<[name := x]> d)]> (heap s)) s, Ok tt)
    | _ => (s, Raised (TypeError "not a model instance"))
    end.

(** [getattr(self, name)] for a name that no class defines: an instance
    attribute or nothing. *)
Definition getattr (self : ref) (name : string) : M value :=
  λ s,
    match heap s !! self with
    | Some (OInstance c d) =>
        match d !! name with
        | Some x => (s, Ok x)
        | None => (s, Raised (AttributeError name))
        end
    | _ => (s, Raised (AttributeError name))
    end.

(** [type(self)] of a model instance. *)
Definition type_of (self : ref) : M class :=
  λ s,
    match heap s !! self with
    | Some (OInstance c _) => (s, Ok c)
    | _ => (s, Raised (TypeError "not a model instance"))
    end.

(** Truth value of an object, as an [if] tests it. A model defines neither
    [__bool__] nor [__len__], so every instance is true. *)
Definition truthy (s : state) (x : value) : bool :=
  match x with
  | VNone => false
  | VUUID _ | VDateTime _ | VOpaque _ _ => true
  | VRef a =>
      match heap s !! a with
      | Some (OSet st) => negb (bool_decide (st = ∅))
      | Some (OList l) => negb (bool_decide (l = []))
      | _ => true
      end
  end.

(** ** pydantic (v1) models *)

Module pydantic.

Inductive Extra := allow | ignore | forbid.

#[global] Instance Extra_eq_dec : EqDecision Extra.
Proof. solve_decision. Defined.

Record Config := mkConfig {
  allow_mutation : bool;
  arbitrary_types_allowed : bool;
  extra : Extra
}.

(** Annotated field types that occur in [prefect.context]. *)
Inductive ftype :=
| TDateTime
| TUUID
| TArbitrary (k : kind)          (* a plain class: Flow, OrionClient, ... *)
| TOptional (k : kind)
| TList (k : kind)
| TSetStr.

#[global] Instance ftype_eq_dec : EqDecision ftype.
Proof. solve_decision. Defined.

Inductive factory := now_utc | new_list | new_set.

#[global] Instance factory_eq_dec : EqDecision factory.
Proof. solve_decision. Defined.

Inductive fdefault :=
| Required
| Default (v : value)
| DefaultFactory (f : factory).

#[global] Instance fdefault_eq_dec : EqDecision fdefault.
Proof. solve_decision. Defined.

Record ModelField := mkField {
  name : string;
  outer_type : ftype;
  field_default : fdefault
}.

#[global] Instance ModelField_eq_dec : EqDecision ModelField.
Proof. solve_decision. Defined.

Definition is_kind (k : kind) (x : value) : bool :=
  match x with
  | VOpaque k' _ => bool_decide (k = k')
  | _ => false
  end.

(** [field.validate(value)]; the result [None] is a validation error.

    - A datetime field takes a datetime as it is, a UUID field a UUID as it
      is. What pydantic would parse into either (strings, numbers, bytes)
      is not a value of the embedding; every other value is refused by
      [parse_datetime] and by the UUID validator, as here.
    - Arbitrary classes are validated by [isinstance] (this is what
      [arbitrary_types_allowed] admits), and [None] passes only where the
      field is [Optional].
    - A list or set field accepts a list or a set, validates the elements
      and builds a new container, so the model never shares a list or set
      with its caller. The elements of a set are strings, which are instances
      of no collaborator class, so only the empty set passes as a list of
      them; the elements of a list are never strings, so only the empty
      list passes as a set of strings. *)
Definition validate (ty : ftype) (x : value) : M (option value) :=
  match ty, x with
  | TDateTime, VDateTime _ => ret (Some x)
  | TUUID, VUUID _ => ret (Some x)
  | TArbitrary k, _ => ret (if is_kind k x then Some x else None)
  | TOptional k, VNone => ret (Some VNone)
  | TOptional k, _ => ret (if is_kind k x then Some x else None)
  | TList k, VRef a =>
      λ s, match heap s !! a with
           | Some (OList l) =>
               if forallb (is_kind k) l
               then (let* b := alloc (OList l) in ret (Some (VRef b))) s
               else (s, Ok None)
           | Some (OSet st) =>
               if bool_decide (st = ∅)
               then (let* b := alloc (OList []) in ret (Some (VRef b))) s
               else (s, Ok None)
           | _ => (s, Ok None)
           end
  | TSetStr, VRef a =>
      λ s, match heap s !! a with
           | Some (OSet st) => (let* b := alloc (OSet st) in ret (Some (VRef b))) s
           | Some (OList l) =>
               if bool_decide (l = [])
               then (let* b := alloc (OSet ∅) in ret (Some (VRef b))) s
               else (s, Ok None)
           | _ => (s, Ok None)
           end
  | _, _ => ret None
  end.

(** Calling a [default_factory]. *)
Definition call_factory (f : factory) : M value :=
  match f with
  | now_utc => λ s, (s, Ok (VDateTime (clock s)))     (* pendulum.now("UTC") *)
  | new_list => let* a := alloc (OList []) in ret (VRef a)
  | new_set => let* a := alloc (OSet ∅) in ret (VRef a)
  end.

Definition acc : Type := gmap string value * list (string * string).

(** One iteration of the loop of [validate_model] over [__fields__]. *)
Definition field_step (kwargs : gmap string value) (a : acc) (f : ModelField) : M acc :=
  let '(values, errors) := a in
  match kwargs !! name f with
  | None =>
      match field_default f with
      | Required => ret (values, errors ++ [(name f, "value_error.missing")])
      | Default v => ret (<[name f := v]> values, errors)
      | DefaultFactory fa =>
          let* v := call_factory fa in ret (<[name f := v]> values, errors)
      end
  | Some x =>
      let* r := validate (outer_type f) x in
      match r with
      | Some v => ret (<[name f := v]> values, errors)
      | None => ret (values, errors ++ [(name f, "type_error")])
      end
  end.

Fixpoint validate_fields (kwargs : gmap string value) (fs : list ModelField)
    (a : acc) : M acc :=
  match fs with
  | [] => ret a
  | f :: fs' => let* a' := field_step kwargs a f in validate_fields kwargs fs' a'
  end.

Definition str_le (a b : string) : Prop := Is_true (String.leb a b).

(** The keyword arguments that name no field, in sorted order. *)
Definition extra_keys (fields : list ModelField) (kwargs : gmap string value)
    : list string :=
  merge_sort str_le
    (elements (dom kwargs ∖ list_to_set (C := gset string) (name <$> fields))).

(** [validate_model(model, input_data)]. *)
Definition validate_model (cfg : Config) (fields : list ModelField)
    (kwargs : gmap string value) : M acc :=
  let* a := validate_fields kwargs fields (∅, []) in
  let '(values, errors) := a in
  let ex := extra_keys fields kwargs in
  match extra cfg with
  | ignore => ret (values, errors)
  | allow =>
      ret (foldr (λ k vs, match kwargs !! k with
                          | Some x => <[k := x]> vs
                          | None => vs
                          end) values ex, errors)
  | forbid => ret (values, errors ++ ((λ k, (k, "value_error.extra")) <$> ex))
  end.

(** [BaseModel.__init__] for class [c], called with keyword arguments
    [kwargs]. *)
Definition init (cfg : Config) (fields : list ModelField) (c : class)
    (kwargs : gmap string value) : M ref :=
  let* a := validate_model cfg fields kwargs in
  match a.2 with
  | [] => alloc (OInstance c a.1)
  | errors => raise (ValidationError errors)
  end.

(** [BaseModel.__setattr__(self, name, x)] for a name that is not a private
    attribute (the context classes declare none). *)
Definition setattr (cfg : Config) (fields : list ModelField)
    (self : ref) (nm : string) (x : value) : M unit :=
  let* _ := type_of self in
  if bool_decide (extra cfg ≠ allow) && negb (bool_decide (nm ∈ name <$> fields))
  then raise (ValueError "object has no such field")
  else if negb (allow_mutation cfg)
  then raise (TypeError "object is immutable and does not support item assignment")
  else object_setattr self nm x.

End pydantic.

(** ** prefect.context *)

Import pydantic.

(** [ContextModel.Config], inherited by every context class. *)
Definition Config : pydantic.Config :=
  {| allow_mutation := false;
     arbitrary_types_allowed := true;
     extra := forbid |}.

(** [RunContext.start_time]. *)
Definition start_time : ModelField :=
  mkField "start_time" TDateTime (DefaultFactory now_utc).

(** [__fields__] of each class, inherited fields first. *)
Definition fields (c : class) : list ModelField :=
  match c with
  | ContextModel => []
  | RunContext => [start_time]
  | FlowRunContext =>
      [ start_time;
        mkField "flow" (TArbitrary KFlow) Required;
        mkField "flow_run_id" TUUID Required;
        mkField "client" (TArbitrary KOrionClient) Required;
        mkField "executor" (TArbitrary KBaseExecutor) Required;
        mkField "task_run_futures" (TList KPrefectFuture) (DefaultFactory new_list);
        mkField "subflow_states" (TList KState) (DefaultFactory new_list);
        mkField "sync_portal" (TOptional KBlockingPortal) (Default VNone);
        mkField "timeout_scope" (TOptional KCancelScope) (Default VNone) ]
  | TaskRunContext =>
      [ start_time;
        mkField "task" (TArbitrary KTask) Required;
        mkField "task_run_id" TUUID Required;
        mkField "flow_run_id" TUUID Required;
        mkField "client" (TArbitrary KOrionClient) Required ]
  | TagsContext =>
      [ mkField "current_tags" TSetStr (DefaultFactory new_set) ]
  end.

(** The class attribute [__var__]: only annotated on [ContextModel] (and so
    absent on it and on [RunContext]), assigned by the three leaf classes. *)
Definition class_var (c : class) : option ContextVar :=
  match c with
  | FlowRunContext => Some var_flow_run
  | TaskRunContext => Some var_task_run
  | TagsContext => Some var_tags
  | ContextModel | RunContext => None
  end.

Definition cls_var (c : class) : M ContextVar :=
  match class_var c with
  | Some v => ret v
  | None => raise (AttributeError "__var__")
  end.

(** [self.__var__] *)
Definition self_var (self : ref) : M ContextVar :=
  let* c := type_of self in cls_var c.

(** Calling class [c] with keyword arguments [kwargs]. *)
Definition new (c : class) (kwargs : gmap string value) : M ref :=
  pydantic.init Config (fields c) c kwargs.

(** [self.nm = x] *)
Definition setattr (self : ref) (nm : string) (x : value) : M unit :=
  let* c := type_of self in
  pydantic.setattr Config (fields c) self nm x.

(** [ContextModel.__enter__], run by execution unit [u]. *)
Definition ContextModel_enter (u : nat) (self : ref) : M ref :=
  let* var := self_var self in
  let* token := contextvars.set u var (VRef self) in
  object_setattr self "__token" token >>
  ret self.

(** [ContextModel.__exit__] *)
Definition ContextModel_exit (u : nat) (self : ref) : M unit :=
  let* var := self_var self in
  let* token := getattr self "__token" in
  contextvars.reset u var token.

(** [ContextModel.get], as inherited by class [c]. *)
Definition ContextModel_get (u : nat) (c : class) : M value :=
  let* var := cls_var c in
  contextvars.get u var VNone.

(** [TagsContext.get]: the default is built before the variable is read. *)
Definition TagsContext_get (u : nat) : M value :=
  let* var := cls_var TagsContext in
  let* dflt := new TagsContext ∅ in
  contextvars.get u var (VRef dflt).

Definition test (x : value) : M bool := λ s, (s, Ok (truthy s x)).

Definition get_run_context (u : nat) : M value :=
  let* task_run_ctx := ContextModel_get u TaskRunContext in
  let* b := test task_run_ctx in
  if b : bool then ret task_run_ctx
  else
    let* flow_run_ctx := ContextModel_get u FlowRunContext in
    let* b := test flow_run_ctx in
    if b : bool then ret flow_run_ctx
    else raise (RuntimeError
      "No run context available. You are not in a flow or task run context.").

(** ** Code that runs inside the scopes *)

(** What the body of a scope may do besides opening further scopes. *)
Inductive action :=
| New (c : class) (kwargs : gmap string value)
| Get (c : class)
| TagsGet
| GetRunContext
| SetAttr (self : ref) (nm : string) (x : value)
| SetAdd (a : ref) (x : string)          (* a.add(x) on a set *)
| ListAppend (a : ref) (x : value)       (* a.append(x) on a list *)
| Sleep (d : Z).                         (* wall-clock time passes *)

Definition set_add (a : ref) (x : string) : M unit :=
  λ s, match heap s !! a with
       | Some (OSet st) => store a (OSet ({[x]} ∪ st)) s
       | _ => (s, Raised (AttributeError "add"))
       end.

Definition list_append (a : ref) (x : value) : M unit :=
  λ s, match heap s !! a with
       | Some (OList l) => store a (OList (l ++ [x])) s
       | _ => (s, Raised (AttributeError "append"))
       end.

Definition sleep (d : Z) : M unit :=
  λ s, (mkState (bindings s) (heap s) (clock s + d)%Z, Ok tt).

Definition run_action (u : nat) (a : action) : M unit :=
  match a with
  | New c kwargs => new c kwargs >> ret tt
  | Get c => ContextModel_get u c >> ret tt
  | TagsGet => TagsContext_get u >> ret tt
  | GetRunContext => get_run_context u >> ret tt
  | SetAttr self nm x => setattr self nm x
  | SetAdd a x => set_add a x
  | ListAppend a x => list_append a x
  | Sleep d => sleep d
  end.

(** Structured code: [With c body] is [with c: body]; [Raise] stands for an
    error or a cancellation delivered at that point. *)
Inductive stmt :=
| Pass
| Raise (e : exn)
| Do (a : action)
| Seq (p q : stmt)
| With (c : ref) (body : stmt)
| Try (body handler : stmt).

(** The [with] statement: [__exit__] runs however the body ends; it returns
    [None], so an exception of the body propagates, unless [__exit__] itself
    raises. *)
Fixpoint exec (u : nat) (p : stmt) : M unit :=
  match p with
  | Pass => ret tt
  | Raise e => raise e
  | Do a => run_action u a
  | Seq p q => exec u p >> exec u q
  | With c body =>
      let* _ := ContextModel_enter u c in
      λ s,
        let '(s1, r) := exec u body s in
        match ContextModel_exit u c s1 with
        | (s2, Ok _) => (s2, r)
        | (s2, Raised e) => (s2, Raised e)
        end
  | Try body handler =>
      λ s,
        match exec u body s with
        | (s1, Ok _) => (s1, Ok tt)
        | (s1, Raised _) => exec u handler s1
        end
  end.

(** * Vocabulary of the properties *)

(** ** States before and after a scope operation *)

(** The state a successful [__enter__] of [self] (an instance of [cl] with
    dictionary [d], whose class variable is [v]) leads to: a fresh token at
    the end of the heap, [self] bound, and the token stored on [self]. *)
Definition enter_state (u : nat) (self : ref) (cl : class)
    (d : gmap string value) (v : ContextVar) (s : state) : state :=
  mkState
    (<[(u, v) := VRef self]> (bindings s))
    (<[self := OInstance cl (<["__token" := VRef (length (heap s))]> d)]>
       (heap s ++ [OToken (mkToken u v (bindings s !! (u, v)) false)]))
    (clock s).

(** What [reset] does to the bindings with a token that saved [old]. *)
Definition restore (u : nat) (v : ContextVar) (old : option value)
    (b : gmap (nat * ContextVar) value) : gmap (nat * ContextVar) value :=
  match old with
  | None => delete (u, v) b
  | Some x => <[(u, v) := x]> b
  end.

(** The token [t] once used. *)
Definition consumed (t : Token) : Token :=
  mkToken (tok_ctx t) (tok_var t) (tok_oldval t) true.

(** The state a successful [__exit__] leads to, with token [t] at [a]. *)
Definition exit_state (u : nat) (v : ContextVar) (a : ref) (t : Token)
    (s : state) : state :=
  mkState (restore u v (tok_oldval t) (bindings s))
          (<[a := OToken (consumed t)]> (heap s))
          (clock s).

(** The instance [self] can be left by unit [u]: it holds a token that is
    unconsumed and was made by [u] for the variable of its class. *)
Definition can_exit (u : nat) (self : ref) (s : state)
    (v : ContextVar) (a : ref) (t : Token) : Prop :=
  ∃ cl d,
    heap s !! self = Some (OInstance cl d) ∧
    class_var cl = Some v ∧
    d !! "__token" = Some (VRef a) ∧
    heap s !! a = Some (OToken t) ∧
    tok_used t = false ∧ tok_var t = v ∧ tok_ctx t = u.

(** ** Frames and invariants *)

(** [benign s s']: the bindings are the same, every model instance of [s] is
    there unchanged, and the two heaps hold the same tokens. Construction,
    lookups and the mutation of plain sets and lists are all of this kind. *)
Definition benign (s s' : state) : Prop :=
  bindings s' = bindings s ∧
  (∀ a c d, heap s !! a = Some (OInstance c d) → heap s' !! a = Some (OInstance c d)) ∧
  (∀ a t, heap s !! a = Some (OToken t) ↔ heap s' !! a = Some (OToken t)).

(** A computation all of whose runs are benign. *)
Definition Benign {A} (m : M A) : Prop := ∀ s, benign s (m s).1.

(** A state predicate is robust when benign steps, entering a scope and
    leaving a scope all preserve it; running any code then preserves it. *)
Definition robust (P : state → Prop) : Prop :=
  (∀ s s', benign s s' → P s → P s') ∧
  (∀ u self cl d v s,
     heap s !! self = Some (OInstance cl d) → class_var cl = Some v →
     P s → P (enter_state u self cl d v s)) ∧
  (∀ u self v a t s, can_exit u self s v a t → P s → P (exit_state u v a t s)).

(** Whatever is bound for a variable, and whatever a token would restore for
    it, is an instance of a class that declares that variable. *)
Definition valid_for (s : state) (v : ContextVar) (x : value) : Prop :=
  ∃ a c d, x = VRef a ∧ heap s !! a = Some (OInstance c d) ∧ class_var c = Some v.

(** Well-formed states: those reachable by constructing, entering and
    leaving contexts. *)
Definition wf (s : state) : Prop :=
  (∀ u v x, bindings s !! (u, v) = Some x → valid_for s v x) ∧
  (∀ a t x, heap s !! a = Some (OToken t) → tok_oldval t = Some x →
            valid_for s (tok_var t) x).

(** Instances stay instances of their class. *)
Definition inst_mono (s s' : state) : Prop :=
  ∀ a c d, heap s !! a = Some (OInstance c d) → ∃ d', heap s' !! a = Some (OInstance c d').

(** A field of a model, other than the token slot, keeps its value. *)
Definition has_field (r : ref) (c : class) (k : string) (x : value) (s : state) : Prop :=
  ∃ d, heap s !! r = Some (OInstance c d) ∧ d !! k = Some x.

(** The instances a piece of code enters. *)
Fixpoint entered (p : stmt) : gset nat :=
  match p with
  | With c body => {[c]} ∪ entered body
  | Seq p q | Try p q => entered p ∪ entered q
  | Pass | Raise _ | Do _ => ∅
  end.

(** No scope is opened on an instance inside a scope of that same
    instance. *)
Fixpoint no_reentry (p : stmt) : bool :=
  match p with
  | With c body => bool_decide (c ∉ entered body) && no_reentry body
  | Seq p q | Try p q => no_reentry p && no_reentry q
  | Pass | Raise _ | Do _ => true
  end.

(** What code that enters only the instances [E] leaves behind: the same
    bindings, the tokens that already existed untouched, and every other
    instance untouched. *)
Definition framed (E : gset nat) (s s' : state) : Prop :=
  bindings s' = bindings s ∧
  (∀ a t, heap s !! a = Some (OToken t) → heap s' !! a = Some (OToken t)) ∧
  (∀ a c d, a ∉ E → heap s !! a = Some (OInstance c d) →
            heap s' !! a = Some (OInstance c d)).

(** ** Results and errors by name *)

(** The dictionary of a [TagsContext] built with no arguments, its set being
    at address [n]. *)
Definition default_tags_dict (n : nat) : gmap string value :=
  <["current_tags" := VRef n]> ∅.

(** The error of [get_run_context] outside of any run. *)
Definition no_run_context : exn :=
  RuntimeError "No run context available. You are not in a flow or task run context.".

(** ** Sample objects *)

Definition flow_kwargs : gmap string value :=
  <["flow" := VOpaque KFlow 0]>
    (<["flow_run_id" := VUUID 7]>
       (<["client" := VOpaque KOrionClient 0]>
          (<["executor" := VOpaque KBaseExecutor 0]> ∅))).

Definition task_kwargs : gmap string value :=
  <["task" := VOpaque KTask 0]>
    (<["task_run_id" := VUUID 8]>
       (<["flow_run_id" := VUUID 7]>
          (<["client" := VOpaque KOrionClient 0]> ∅))).

(** Two flow run contexts (addresses 2 and 5) and a task run context
    (address 6), constructed and not yet entered. *)
Definition sample : state :=
  (( new FlowRunContext flow_kwargs >>
     new FlowRunContext flow_kwargs >>
     new TaskRunContext task_kwargs ) empty_state).1.

(** The result of a [TagsContext.get] is a fresh [TagsContext] whose
    [current_tags] is an empty set. *)
Definition empty_default (r : state * result value) : Prop :=
  ∃ a b d,
    r.2 = Ok (VRef a) ∧
    heap r.1 !! a = Some (OInstance TagsContext d) ∧
    d !! "current_tags" = Some (VRef b) ∧
    heap r.1 !! b = Some (OSet ∅).

(** A task scope cancelled inside a flow scope inside another flow scope,
    then another scope on the first instance: nothing stays bound. *)
Definition nested_cancelled : stmt :=
  Seq (Try (With 2 (Seq (Do TagsGet) (With 5 (With 6 (Raise CancelledError)))))
           Pass)
      (With 2 (Do GetRunContext)).

(** enter A, enter B, exit B, then resolve. *)
Definition enter_enter_exit_resolve (u : nat) (a b : ref) : M value :=
  ContextModel_enter u a >>
  ContextModel_enter u b >>
  ContextModel_exit u b >>
  get_run_context u.

(** A computation that never raises. *)
Definition Total {A} (m : M A) : Prop := ∀ s, ∃ s' a, m s = (s', Ok a).

(** The errors [validate_model] reports for keywords that name no field. *)
Definition extra_errors (fs : list ModelField) (kwargs : gmap string value)
    : list (string * string) :=
  (λ k, (k, "value_error.extra")) <$> pydantic.extra_keys fs kwargs.

(** The two errors of assignment, and the error of reusing a token. *)
Definition immutable_error : exn :=
  TypeError "object is immutable and does not support item assignment".

Definition no_field_error : exn := ValueError "object has no such field".

Definition token_used_error : exn := RuntimeError "Token has already been used once".

(** ** Vocabulary of the further properties *)

(** [robust] for the code of one unit: only the scope operations of unit
    [u] have to preserve the predicate. *)
Definition robust_on (u : nat) (P : state → Prop) : Prop :=
  (∀ s s', benign s s' → P s → P s') ∧
  (∀ self cl d v s,
     heap s !! self = Some (OInstance cl d) → class_var cl = Some v →
     P s → P (enter_state u self cl d v s)) ∧
  (∀ self v a t s, can_exit u self s v a t → P s → P (exit_state u v a t s)).

Definition no_var_error : exn := AttributeError "__var__".

Definition no_token_error : exn := AttributeError "__token".

Definition other_context_error : exn :=
  ValueError "Token was created in a different Context".

(** The keyword arguments of a flow run context: the four required ones. *)
Definition flow_run_kwargs (flow client executor : nat) (id : N)
    : gmap string value :=
  <["flow" := VOpaque KFlow flow]>
    (<["flow_run_id" := VUUID id]>
       (<["client" := VOpaque KOrionClient client]>
          (<["executor" := VOpaque KBaseExecutor executor]> ∅))).

(** The list an instance field refers to. *)
Definition list_field (s : state) (r : ref) (k : string) : option (list value) :=
  match heap s !! r with
  | Some (OInstance _ d) =>
      match d !! k with
      | Some (VRef a) =>
          match heap s !! a with
          | Some (OList l) => Some l
          | _ => None
          end
      | _ => None
      end
  | _ => None
  end.

(** [self.task_run_futures.append(x)] *)
Definition append_future (self : ref) (x : value) : M unit :=
  let* l := getattr self "task_run_futures" in
  match l with
  | VRef a => list_append a x
  | _ => raise (AttributeError "append")
  end.

(** The dictionary of a flow run context built from [flow_run_kwargs] when
    the clock reads [t] and the heap has [n] objects. *)
Definition flow_run_dict (flow client executor : nat) (id : N) (t : Z) (n : nat)
    : gmap string value :=
  <["timeout_scope" := VNone]>
    (<["sync_portal" := VNone]>
       (<["subflow_states" := VRef (S n)]>
          (<["task_run_futures" := VRef n]>
             (<["executor" := VOpaque KBaseExecutor executor]>
                (<["client" := VOpaque KOrionClient client]>
                   (<["flow_run_id" := VUUID id]>
                      (<["flow" := VOpaque KFlow flow]>
                         (<["start_time" := VDateTime t]> ∅)))))))).

(** * Properties *)

(** ** Entering and leaving a scope, in closed form *)

Lemma enter_ok u self cl d v s :
  heap s !! self = Some (OInstance cl d) →
  class_var cl = Some v →
  ContextModel_enter u self s = (enter_state u self cl d v s, Ok self).
Proof.
  intros Hself Hv.
  unfold ContextModel_enter, self_var, type_of, cls_var, bind. rewrite Hself, Hv.
  cbn. unfold object_setattr. cbn.
  rewrite lookup_app_l by (eapply lookup_lt_Some; eauto).
  rewrite Hself. reflexivity.
Qed.

Lemma enter_cases u self s :
  (∃ cl d v, heap s !! self = Some (OInstance cl d) ∧ class_var cl = Some v ∧
             ContextModel_enter u self s = (enter_state u self cl d v s, Ok self))
  ∨ (∃ e, ContextModel_enter u self s = (s, Raised e)).
Proof.
  destruct (heap s !! self) as [[cl d| | |]|] eqn:Hself.
  1: destruct (class_var cl) as [v|] eqn:Hv.
  1: { left. exists cl, d, v. eauto using enter_ok. }
  all: right; unfold ContextModel_enter, self_var, type_of, cls_var, bind;
    rewrite Hself; try rewrite Hv; eauto.
Qed.

Lemma exit_ok u self s v a t :
  can_exit u self s v a t →
  ContextModel_exit u self s = (exit_state u v a t s, Ok tt).
Proof.
  intros (cl & d & Hself & Hv & Htok & Ha & Hused & Hvar & Hctx).
  unfold ContextModel_exit, self_var, type_of, cls_var, getattr, bind.
  rewrite Hself, Hv. cbn. rewrite Hself, Htok. cbn.
  unfold contextvars.reset. rewrite Ha, Hused.
  rewrite !bool_decide_eq_true_2 by done. reflexivity.
Qed.

Lemma exit_cases u self s :
  (∃ v a t, can_exit u self s v a t ∧
            ContextModel_exit u self s = (exit_state u v a t s, Ok tt))
  ∨ (∃ e, ContextModel_exit u self s = (s, Raised e)).
Proof.
  unfold ContextModel_exit, self_var, type_of, cls_var, getattr, bind.
  destruct (heap s !! self) as [[cl d| | |]|] eqn:Hself; eauto.
  destruct (class_var cl) as [v|] eqn:Hv; cbn; eauto.
  rewrite Hself.
  destruct (d !! "__token") as [x|] eqn:Htok; eauto.
  unfold contextvars.reset.
  destruct x as [| | | |a]; eauto.
  destruct (heap s !! a) as [[| | |t]|] eqn:Ha; eauto.
  destruct (tok_used t) eqn:Hused; eauto.
  destruct (bool_decide (tok_var t = v)) eqn:Hvar; cbn; eauto.
  destruct (bool_decide (tok_ctx t = u)) eqn:Hctx; cbn; eauto.
  apply bool_decide_eq_true_1 in Hvar, Hctx.
  left. exists v, a, t. split; [|done].
  exists cl, d. done.
Qed.

(** ** Steps that touch neither bindings, models nor tokens *)

Lemma benign_refl s : benign s s.
Proof. by repeat split. Qed.

Lemma benign_trans s1 s2 s3 : benign s1 s2 → benign s2 s3 → benign s1 s3.
Proof.
  intros (Hb1 & Hi1 & Ht1) (Hb2 & Hi2 & Ht2). repeat split.
  - congruence.
  - eauto.
  - intros H. by apply Ht2, Ht1.
  - intros H. by apply Ht1, Ht2.
Qed.

Lemma benign_append s o :
  (∀ t, o ≠ OToken t) → benign s (set_heap (heap s ++ [o]) s).
Proof.
  intros Ho. repeat split; cbn.
  - intros a c d H. by apply lookup_app_l_Some.
  - intros H. by apply lookup_app_l_Some.
  - intros [[_ H]|[_ H]]%lookup_snoc_Some; [done|]. by destruct (Ho t).
Qed.

Lemma benign_overwrite s a o :
  (∀ c d, heap s !! a ≠ Some (OInstance c d)) →
  (∀ t, heap s !! a ≠ Some (OToken t)) →
  (∀ t, o ≠ OToken t) →
  benign s (set_heap (<[a := o]> (heap s)) s).
Proof.
  intros Hi Ht Ho. repeat split; cbn.
  - intros a' c d H. rewrite list_lookup_insert_ne; [done|]. intros ->. by destruct (Hi c d).
  - intros H. rewrite list_lookup_insert_ne; [done|]. intros ->. by destruct (Ht t).
  - intros H. apply list_lookup_insert_Some in H as [(-> & Heq & _)|[_ H]]; [|done].
    by destruct (Ho t).
Qed.

Lemma benign_clock s z : benign s (mkState (bindings s) (heap s) z).
Proof. by repeat split. Qed.

Section benign_combinators.
Context {A B : Type}.

Lemma Benign_ret (a : A) : Benign (ret a).
Proof. intros s. apply benign_refl. Qed.

Lemma Benign_raise (e : exn) : Benign (raise (A := A) e).
Proof. intros s. apply benign_refl. Qed.

Lemma Benign_bind (m : M A) (k : A → M B) :
  Benign m → (∀ a, Benign (k a)) → Benign (bind m k).
Proof.
  intros Hm Hk s. unfold bind. specialize (Hm s).
  destruct (m s) as [s1 [a|e]]; cbn in *; [|done].
  eapply benign_trans; [done|apply Hk].
Qed.
End benign_combinators.

Lemma Benign_alloc o : (∀ t, o ≠ OToken t) → Benign (alloc o).
Proof. intros Ho s. by apply benign_append. Qed.

Ltac benign_step :=
  repeat first
    [ apply Benign_bind; [|intros ?]
    | apply Benign_ret
    | apply Benign_raise
    | apply Benign_alloc; by intros ? ].

Lemma Benign_validate ty x : Benign (pydantic.validate ty x).
Proof.
  destruct ty, x; cbn; try (benign_step; fail); try (case_match; benign_step; fail).
  all: intros s; destruct (heap s !! a) as [[]|]; try apply benign_refl.
  all: try case_match; try apply benign_refl; by apply benign_append.
Qed.

Lemma Benign_call_factory f : Benign (pydantic.call_factory f).
Proof.
  destruct f; cbn; [|benign_step..].
  intros s. apply benign_refl.
Qed.

Lemma Benign_field_step kwargs a f : Benign (pydantic.field_step kwargs a f).
Proof.
  unfold pydantic.field_step. destruct a as [values errors].
  destruct (kwargs !! _).
  - apply Benign_bind; [apply Benign_validate|]. intros [w|]; benign_step.
  - destruct (pydantic.field_default f); benign_step. apply Benign_call_factory.
Qed.

Lemma Benign_validate_fields kwargs fs a : Benign (pydantic.validate_fields kwargs fs a).
Proof.
  revert a. induction fs as [|f fs IH]; intros a; cbn.
  - benign_step.
  - apply Benign_bind; [apply Benign_field_step|done].
Qed.

Lemma Benign_validate_model cfg fs kwargs : Benign (pydantic.validate_model cfg fs kwargs).
Proof.
  unfold pydantic.validate_model.
  apply Benign_bind; [apply Benign_validate_fields|].
  intros [values errors]. destruct (pydantic.extra cfg); benign_step.
Qed.

Lemma Benign_new c kwargs : Benign (new c kwargs).
Proof.
  unfold new, pydantic.init.
  apply Benign_bind; [apply Benign_validate_model|].
  intros [values errors]; cbn. destruct errors; benign_step.
Qed.

Lemma Benign_type_of self : Benign (type_of self).
Proof. intros s. unfold type_of. repeat case_match; apply benign_refl. Qed.

(** Under [Config], assignment never reaches the write. *)
Lemma Benign_setattr self nm x : Benign (setattr self nm x).
Proof.
  unfold setattr, pydantic.setattr.
  apply Benign_bind; [apply Benign_type_of|]. intros c.
  apply Benign_bind; [apply Benign_type_of|]. intros _.
  cbn. case_match; benign_step.
Qed.

Lemma Benign_cls_var c : Benign (cls_var c).
Proof. unfold cls_var. case_match; benign_step. Qed.

Lemma Benign_cv_get u v x : Benign (contextvars.get u v x).
Proof. intros s. apply benign_refl. Qed.

Lemma Benign_get u c : Benign (ContextModel_get u c).
Proof.
  unfold ContextModel_get.
  apply Benign_bind; [apply Benign_cls_var|]. intros v. apply Benign_cv_get.
Qed.

Lemma Benign_tags_get u : Benign (TagsContext_get u).
Proof.
  unfold TagsContext_get.
  apply Benign_bind; [apply Benign_cls_var|]. intros v.
  apply Benign_bind; [apply Benign_new|]. intros d. apply Benign_cv_get.
Qed.

Lemma Benign_test x : Benign (test x).
Proof. intros s. apply benign_refl. Qed.

Lemma Benign_get_run_context u : Benign (get_run_context u).
Proof.
  unfold get_run_context.
  apply Benign_bind; [apply Benign_get|]. intros x.
  apply Benign_bind; [apply Benign_test|]. intros [|]; [benign_step|].
  apply Benign_bind; [apply Benign_get|]. intros y.
  apply Benign_bind; [apply Benign_test|]. intros [|]; benign_step.
Qed.

Lemma Benign_set_add a x : Benign (set_add a x).
Proof.
  intros s. unfold set_add, store.
  destruct (heap s !! a) as [[]|] eqn:Ha; try apply benign_refl.
  apply benign_overwrite; congruence.
Qed.

Lemma Benign_list_append a x : Benign (list_append a x).
Proof.
  intros s. unfold list_append, store.
  destruct (heap s !! a) as [[]|] eqn:Ha; try apply benign_refl.
  apply benign_overwrite; congruence.
Qed.

Lemma Benign_run_action u a : Benign (run_action u a).
Proof.
  destruct a; cbn.
  - apply Benign_bind; [apply Benign_new|]. intros; benign_step.
  - apply Benign_bind; [apply Benign_get|]. intros; benign_step.
  - apply Benign_bind; [apply Benign_tags_get|]. intros; benign_step.
  - apply Benign_bind; [apply Benign_get_run_context|]. intros; benign_step.
  - apply Benign_setattr.
  - apply Benign_set_add.
  - apply Benign_list_append.
  - intros s. apply benign_clock.
Qed.

(** ** Invariants of running code *)

Lemma enter_robust P u self s : robust P → P s → P (ContextModel_enter u self s).1.
Proof.
  intros (_ & Hent & _) HP.
  destruct (enter_cases u self s) as [(cl & d & v & Hs & Hv & ->)|[e ->]]; cbn; eauto.
Qed.

Lemma exit_robust P u self s : robust P → P s → P (ContextModel_exit u self s).1.
Proof.
  intros (_ & _ & Hex) HP.
  destruct (exit_cases u self s) as [(v & a & t & Hc & ->)|[e ->]]; cbn; eauto.
Qed.

Lemma exec_robust P : robust P → ∀ u p s, P s → P (exec u p s).1.
Proof.
  intros HP u p. induction p as [|e|a|p IHp q IHq|c body IH|body IHb h IHh]; intros s Hs; cbn.
  - done.
  - done.
  - destruct HP as (Hb & _). eapply Hb; [apply Benign_run_action|done].
  - unfold bind. specialize (IHp s Hs).
    destruct (exec u p s) as [s1 [[]|e]]; cbn in *; eauto.
  - unfold bind. pose proof (enter_robust P u c s HP Hs) as H1.
    destruct (ContextModel_enter u c s) as [s1 [r|e]]; cbn in *; [|done].
    specialize (IH s1 H1). destruct (exec u body s1) as [s2 r2]; cbn in *.
    pose proof (exit_robust P u c s2 HP IH) as H3.
    by destruct (ContextModel_exit u c s2) as [s3 [[]|e]].
  - specialize (IHb s Hs).
    destruct (exec u body s) as [s1 [[]|e]]; cbn in *; eauto.
Qed.

Lemma valid_for_mono s s' v x : inst_mono s s' → valid_for s v x → valid_for s' v x.
Proof.
  intros Hm (a & c & d & -> & Ha & Hc). destruct (Hm _ _ _ Ha) as [d' Hd'].
  by exists a, c, d'.
Qed.

Lemma enter_state_mono u self cl d v s :
  heap s !! self = Some (OInstance cl d) → inst_mono s (enter_state u self cl d v s).
Proof.
  intros Hs a c d0 Ha. cbn.
  destruct (decide (self = a)) as [->|Hne].
  - rewrite Hs in Ha. injection Ha as <- <-. eexists.
    apply list_lookup_insert_eq. rewrite length_app. apply lookup_lt_Some in Hs. lia.
  - exists d0. rewrite list_lookup_insert_ne by done. by apply lookup_app_l_Some.
Qed.

Lemma exit_state_inst u self v a t s a' c d :
  can_exit u self s v a t →
  heap s !! a' = Some (OInstance c d) →
  heap (exit_state u v a t s) !! a' = Some (OInstance c d).
Proof.
  intros (cl & d0 & _ & _ & _ & Ha & _) Ha'. cbn.
  rewrite list_lookup_insert_ne; [done|]. intros ->. congruence.
Qed.

Lemma wf_empty : wf empty_state.
Proof. split; cbn; intros *; [by rewrite lookup_empty|done]. Qed.

Lemma wf_robust : robust wf.
Proof.
  split; [|split].
  - intros s s' (Hb & Hi & Ht) [Hwb Hwt].
    assert (inst_mono s s') as Hm by (intros a c d H; eauto).
    split.
    + intros u v x. rewrite Hb. eauto using valid_for_mono.
    + intros a t x Ha Hx. apply Ht in Ha. eauto using valid_for_mono.
  - intros u self cl d v s Hs Hv [Hwb Hwt].
    pose proof (enter_state_mono u self cl d v s Hs) as Hm.
    split.
    + intros u' v' x. cbn. rewrite lookup_insert.
      case_decide as Hk.
      * injection Hk as <- <-. intros [= <-].
        destruct (Hm _ _ _ Hs) as [d' Hd']. by exists self, cl, d'.
      * eauto using valid_for_mono.
    + intros a t x Ha Hx. cbn in Ha.
      apply list_lookup_insert_Some in Ha as [(_ & ? & _)|[_ Ha]]; [done|].
      apply lookup_snoc_Some in Ha as [[_ Ha]|[_ Ha]].
      * eauto using valid_for_mono.
      * injection Ha as <-. cbn in *. eauto using valid_for_mono.
  - intros u self v a t s Hc [Hwb Hwt].
    assert (inst_mono s (exit_state u v a t s)) as Hm
      by (intros a' c d H; eauto using exit_state_inst).
    destruct Hc as (cl & d0 & _ & _ & _ & Ha & _ & Hvar & _).
    split.
    + intros u' v' x. cbn. unfold restore.
      destruct (tok_oldval t) as [old|] eqn:Hold.
      * rewrite lookup_insert. case_decide as Hk.
        -- injection Hk as <- <-. intros [= <-]. rewrite <- Hvar.
           eauto using valid_for_mono.
        -- eauto using valid_for_mono.
      * rewrite lookup_delete. case_decide; [done|]. eauto using valid_for_mono.
    + intros a' t' x Ha' Hx. cbn in Ha'.
      apply list_lookup_insert_Some in Ha' as [(<- & Heq & _)|[_ Ha']].
      * injection Heq as <-. cbn in *. eauto using valid_for_mono.
      * eauto using valid_for_mono.
Qed.

Lemma has_field_robust r c k x : k ≠ "__token" → robust (has_field r c k x).
Proof.
  intros Hk. split; [|split].
  - intros s s' (_ & Hi & _) (d & Hr & Hd). exists d. eauto.
  - intros u self cl d v s Hs Hv (d0 & Hr & Hd). unfold has_field. cbn.
    destruct (decide (self = r)) as [->|Hne].
    + rewrite Hs in Hr. injection Hr as <- <-. eexists. split.
      * apply list_lookup_insert_eq. rewrite length_app. apply lookup_lt_Some in Hs. lia.
      * by rewrite lookup_insert_ne.
    + exists d0. split; [|done].
      rewrite list_lookup_insert_ne by done. by apply lookup_app_l_Some.
  - intros u self v a t s Hc (d & Hr & Hd). exists d. split; [|done].
    eauto using exit_state_inst.
Qed.

(** ** Nested scopes over distinct instances *)

Lemma framed_refl E s : framed E s s.
Proof. by repeat split. Qed.

Lemma framed_trans E1 E2 s1 s2 s3 :
  framed E1 s1 s2 → framed E2 s2 s3 → framed (E1 ∪ E2) s1 s3.
Proof.
  intros (Hb1 & Ht1 & Hi1) (Hb2 & Ht2 & Hi2). repeat split.
  - congruence.
  - eauto.
  - intros a c d Ha H. apply Hi2; [set_solver|]. apply Hi1; [set_solver|done].
Qed.

Lemma benign_framed E s s' : benign s s' → framed E s s'.
Proof.
  intros (Hb & Hi & Ht). repeat split; [done| |by eauto].
  intros a t. apply Ht.
Qed.

Lemma restore_insert (u : nat) (v : ContextVar) (x : value)
    (b : gmap (nat * ContextVar) value) :
  restore u v (b !! (u, v)) (<[(u, v) := x]> b) = b.
Proof.
  unfold restore. destruct (b !! (u, v)) as [old|] eqn:Hold.
  - rewrite insert_insert_eq. by apply insert_id.
  - by apply delete_insert_id.
Qed.

(** Right after [enter], the instance holds the fresh token. *)
Lemma enter_state_can_exit u self cl d v s :
  heap s !! self = Some (OInstance cl d) →
  class_var cl = Some v →
  can_exit u self (enter_state u self cl d v s) v (length (heap s))
           (mkToken u v (bindings s !! (u, v)) false).
Proof.
  intros Hs Hv. pose proof (lookup_lt_Some _ _ _ Hs) as Hlt.
  exists cl, (<["__token" := VRef (length (heap s))]> d). cbn.
  split; [|split; [done|split; [by rewrite lookup_insert_eq|split; [|done]]]].
  - apply list_lookup_insert_eq. rewrite length_app. lia.
  - rewrite list_lookup_insert_ne by lia. by apply list_lookup_middle.
Qed.

Lemma enter_state_framed_outside u self cl d v s :
  heap s !! self = Some (OInstance cl d) →
  (∀ a t, heap s !! a = Some (OToken t) →
          heap (enter_state u self cl d v s) !! a = Some (OToken t)) ∧
  (∀ a c d0, a ≠ self → heap s !! a = Some (OInstance c d0) →
             heap (enter_state u self cl d v s) !! a = Some (OInstance c d0)).
Proof.
  intros Hs. split; cbn.
  - intros a t Ha. rewrite list_lookup_insert_ne by congruence.
    by apply lookup_app_l_Some.
  - intros a c d0 Hne Ha. rewrite list_lookup_insert_ne by done.
    by apply lookup_app_l_Some.
Qed.

(** A frame around the body keeps the instance able to leave. *)
Lemma can_exit_framed E u self s s' v a t :
  self ∉ E → framed E s s' → can_exit u self s v a t → can_exit u self s' v a t.
Proof.
  intros HE (_ & Ht & Hi) (cl & d & Hs & Hv & Hd & Ha & Hrest).
  exists cl, d. eauto 10.
Qed.

Lemma exec_framed u p s :
  no_reentry p = true → framed (entered p) s (exec u p s).1.
Proof.
  revert s. induction p as [|e|a|p IHp q IHq|c body IH|body IHb h IHh];
    intros s Hnr; cbn in *.
  - apply framed_refl.
  - apply framed_refl.
  - apply benign_framed, Benign_run_action.
  - apply andb_true_iff in Hnr as [Hp Hq]. unfold bind.
    specialize (IHp s Hp). destruct (exec u p s) as [s1 [[]|e]]; cbn in *.
    + eapply framed_trans; eauto.
    + destruct IHp as (Hb & Ht & Hi). repeat split; [done..|].
      intros a c d Ha. apply Hi. set_solver.
  - apply andb_true_iff in Hnr as [Hc Hbody]. apply bool_decide_eq_true_1 in Hc.
    unfold bind.
    destruct (enter_cases u c s) as [(cl & d & v & Hs & Hv & ->)|[e ->]];
      [|apply framed_refl].
    set (s1 := enter_state u c cl d v s).
    specialize (IH s1 Hbody).
    destruct (exec u body s1) as [s2 r]; cbn in IH.
    pose proof (enter_state_can_exit u c cl d v s Hs Hv) as Hexit.
    eapply can_exit_framed in Hexit; [|done..].
    rewrite (exit_ok _ _ _ _ _ _ Hexit).
    destruct (enter_state_framed_outside u c cl d v s Hs) as [Ht1 Hi1].
    destruct IH as (Hb2 & Ht2 & Hi2).
    assert (∀ a o, heap s !! a = Some o → a ≠ length (heap s)) as Hold.
    { intros a o Ha%lookup_lt_Some. lia. }
    assert (framed ({[c]} ∪ entered body) s (exit_state u v (length (heap s))
              (mkToken u v (bindings s !! (u, v)) false) s2)) as Hfr.
    { repeat split; cbn.
      - rewrite Hb2. apply restore_insert.
      - intros a t Ha. rewrite list_lookup_insert_ne by (symmetry; eauto). eauto.
      - intros a c0 d0 Hin Ha. rewrite list_lookup_insert_ne by (symmetry; eauto).
        apply Hi2; [set_solver|]. apply Hi1; [set_solver|done]. }
    by destruct r.
  - apply andb_true_iff in Hnr as [Hp Hq].
    specialize (IHb s Hp). destruct (exec u body s) as [s1 [[]|e]]; cbn in *.
    + destruct IHb as (Hb & Ht & Hi). repeat split; [done..|].
      intros a c d Ha. apply Hi. set_solver.
    + eapply framed_trans; eauto.
Qed.

(** ** [TagsContext.get] in closed form *)

Lemma extra_keys_empty fs : pydantic.extra_keys fs ∅ = [].
Proof.
  unfold pydantic.extra_keys.
  by rewrite dom_empty_L, empty_difference_L, elements_empty.
Qed.

Lemma new_TagsContext_default s :
  new TagsContext ∅ s =
    (set_heap (heap s ++ [OSet ∅; OInstance TagsContext (default_tags_dict (length (heap s)))]) s,
     Ok (S (length (heap s)))).
Proof.
  unfold new, pydantic.init, pydantic.validate_model, bind. cbn.
  rewrite lookup_empty, extra_keys_empty. cbn.
  unfold bind, alloc, ret, set_heap. cbn.
  rewrite <- app_assoc, length_app. cbn. rewrite Nat.add_1_r. reflexivity.
Qed.

Lemma TagsContext_get_eq u s :
  TagsContext_get u s =
    (set_heap (heap s ++ [OSet ∅; OInstance TagsContext (default_tags_dict (length (heap s)))]) s,
     Ok (default (VRef (S (length (heap s)))) (bindings s !! (u, var_tags)))).
Proof.
  unfold TagsContext_get, bind. cbn. rewrite new_TagsContext_default. reflexivity.
Qed.

(** ** Lookups in closed form *)

Lemma ContextModel_get_eq u c s :
  ContextModel_get u c s =
    match class_var c with
    | Some v => (s, Ok (default VNone (bindings s !! (u, v))))
    | None => (s, Raised (AttributeError "__var__"))
    end.
Proof. unfold ContextModel_get, cls_var, bind. by destruct (class_var c). Qed.

Lemma get_run_context_task u s x :
  bindings s !! (u, var_task_run) = Some x → truthy s x = true →
  get_run_context u s = (s, Ok x).
Proof.
  intros Hx Ht. unfold get_run_context, bind, test.
  rewrite ContextModel_get_eq. cbn. rewrite Hx. cbn. by rewrite Ht.
Qed.

Lemma get_run_context_flow u s y :
  bindings s !! (u, var_task_run) = None →
  bindings s !! (u, var_flow_run) = Some y → truthy s y = true →
  get_run_context u s = (s, Ok y).
Proof.
  intros Hx Hy Ht. unfold get_run_context, bind, test.
  rewrite !ContextModel_get_eq. cbn. rewrite Hx. cbn. rewrite Hy. cbn. by rewrite Ht.
Qed.

Lemma get_run_context_none u s :
  bindings s !! (u, var_task_run) = None →
  bindings s !! (u, var_flow_run) = None →
  get_run_context u s = (s, Raised no_run_context).
Proof.
  intros Hx Hy. unfold get_run_context, bind, test.
  rewrite !ContextModel_get_eq. cbn. rewrite Hx. cbn. by rewrite Hy.
Qed.

Lemma valid_for_truthy s v x : valid_for s v x → truthy s x = true.
Proof. intros (a & c & d & -> & Ha & _). cbn. by rewrite Ha. Qed.

Lemma valid_for_class s v x :
  valid_for s v x →
  ∃ a c d, x = VRef a ∧ heap s !! a = Some (OInstance c d) ∧
           c = match v with
               | var_flow_run => FlowRunContext
               | var_task_run => TaskRunContext
               | var_tags => TagsContext
               end.
Proof.
  intros (a & c & d & -> & Ha & Hc). exists a, c, d.
  by destruct c, v.
Qed.

(** ** The sample state *)

Lemma sample_objects :
  ∃ d2 d5 d6,
    heap sample !! 2 = Some (OInstance FlowRunContext d2) ∧
    heap sample !! 5 = Some (OInstance FlowRunContext d5) ∧
    heap sample !! 6 = Some (OInstance TaskRunContext d6).
Proof. vm_compute. do 3 eexists. split_and!; reflexivity. Qed.

Lemma wf_sample : wf sample.
Proof.
  destruct wf_robust as (Hb & _). eapply Hb; [|apply wf_empty].
  unfold sample. apply Benign_bind; [apply Benign_new|]. intros _.
  apply Benign_bind; [apply Benign_new|]. intros _. apply Benign_new.
Qed.

Lemma lookup_app_two_fst {A} (l : list A) (x y : A) :
  (l ++ [x; y]) !! length l = Some x.
Proof. by apply list_lookup_middle. Qed.

Lemma lookup_app_two_snd {A} (l : list A) (x y : A) :
  (l ++ [x; y]) !! S (length l) = Some y.
Proof.
  change [x; y] with ([x] ++ [y]). rewrite app_assoc.
  apply list_lookup_middle. rewrite length_app. cbn. lia.
Qed.

Lemma TagsContext_get_unbound u s :
  bindings s !! (u, var_tags) = None → empty_default (TagsContext_get u s).
Proof.
  intros Hu. rewrite TagsContext_get_eq, Hu. cbn.
  exists (S (length (heap s))), (length (heap s)), (default_tags_dict (length (heap s))).
  cbn. split_and!; [done|apply lookup_app_two_snd|apply lookup_insert_eq|
                    apply lookup_app_two_fst].
Qed.

(** * The specified properties *)

(** ** C1: nested scopes restore what was visible *)

(** C1, refuted as stated: a balanced nesting that enters the same instance
    twice does not restore. With the flow run context at address 2 entered
    inside its own scope, [FlowRunContext.get()] returned [None] before and
    returns that context afterwards. *)
Lemma C1_reentry_is_not_restored :
  let p := With 2 (With 2 Pass) in
  (ContextModel_get 0 FlowRunContext sample).2 = Ok VNone ∧
  (ContextModel_get 0 FlowRunContext (exec 0 p sample).1).2 = Ok (VRef 2) ∧
  (exec 0 p sample).2 = Raised (RuntimeError "Token has already been used once").
Proof. vm_compute. split_and!; reflexivity. Qed.

(** C1, as amended: for any properly nested code in which no instance is
    entered again inside its own scope, once all exits have run the
    bindings of every execution unit are what they were before the first
    enter; so [get()] of every context class returns the value it returned
    before, and [TagsContext.get()] returns the instance bound before or,
    when none was bound, a fresh empty default as before. This holds
    however the code ends, errors and cancellations raised in a body
    included. *)
Theorem C1_balanced_scopes_restore (u : nat) (p : stmt) (s : state) :
  no_reentry p = true →
  bindings (exec u p s).1 = bindings s ∧
  (∀ c, (ContextModel_get u c (exec u p s).1).2 = (ContextModel_get u c s).2) ∧
  (∀ x, bindings s !! (u, var_tags) = Some x →
        (TagsContext_get u (exec u p s).1).2 = Ok x ∧ (TagsContext_get u s).2 = Ok x) ∧
  (bindings s !! (u, var_tags) = None →
   empty_default (TagsContext_get u (exec u p s).1) ∧ empty_default (TagsContext_get u s)).
Proof.
  intros Hnr. destruct (exec_framed u p s Hnr) as (Hb & _ & _).
  split_and!.
  - done.
  - intros c. rewrite !ContextModel_get_eq, Hb. by destruct (class_var c).
  - intros x Hx. rewrite !TagsContext_get_eq, Hb, Hx. done.
  - intros Hx. split; apply TagsContext_get_unbound; by rewrite ?Hb.
Qed.

Lemma C1_balanced_scopes_restore_witness :
  no_reentry nested_cancelled = true ∧
  bindings (exec 0 nested_cancelled sample).1 = bindings sample.
Proof.
  split; [vm_compute; reflexivity|].
  apply (C1_balanced_scopes_restore 0 nested_cancelled sample).
  vm_compute; reflexivity.
Defined.

(** ** C2: the task run context takes precedence *)

Lemma enter_then_exit u self cl d v s :
  heap s !! self = Some (OInstance cl d) →
  class_var cl = Some v →
  ∃ s', (ContextModel_enter u self >> ContextModel_exit u self) s = (s', Ok tt) ∧
        bindings s' = bindings s ∧
        inst_mono s s'.
Proof.
  intros Hs Hv. unfold bind. rewrite (enter_ok _ _ _ _ _ _ Hs Hv).
  pose proof (enter_state_can_exit u self cl d v s Hs Hv) as Hc.
  rewrite (exit_ok _ _ _ _ _ _ Hc). eexists. split; [done|]. split.
  - cbn. apply restore_insert.
  - intros a c d0 Ha.
    destruct (enter_state_mono u self cl d v s Hs _ _ _ Ha) as [d' Hd'].
    exists d'. eauto using exit_state_inst.
Qed.

(** C2: whenever a task run context and a flow run context are both bound
    for the calling unit, [get_run_context()] returns the bound task run
    context, which is an instance of [TaskRunContext] and not the bound flow
    run context; and after enter A (a flow run context), enter B (a task run
    context), exit B, it returns A. *)
Theorem C2_task_context_takes_precedence :
  (∀ u s x y,
     wf s →
     bindings s !! (u, var_task_run) = Some x →
     bindings s !! (u, var_flow_run) = Some y →
     get_run_context u s = (s, Ok x) ∧ x ≠ y ∧
     ∃ a d, x = VRef a ∧ heap s !! a = Some (OInstance TaskRunContext d)) ∧
  (∀ u s a b da db,
     heap s !! a = Some (OInstance FlowRunContext da) →
     heap s !! b = Some (OInstance TaskRunContext db) →
     bindings s !! (u, var_task_run) = None →
     (enter_enter_exit_resolve u a b s).2 = Ok (VRef a)).
Proof.
  split.
  - intros u s x y [Hwb Hwt] Hx Hy.
    pose proof (Hwb _ _ _ Hx) as Vx. pose proof (Hwb _ _ _ Hy) as Vy.
    split; [eauto using get_run_context_task, valid_for_truthy|].
    apply valid_for_class in Vx as (a & c & d & -> & Ha & ->).
    apply valid_for_class in Vy as (a' & c' & d' & -> & Ha' & ->).
    split; [|eauto]. intros [= ->]. congruence.
  - intros u s a b da db Ha Hb Ht.
    unfold enter_enter_exit_resolve. unfold bind at 1.
    rewrite (enter_ok u a FlowRunContext da var_flow_run s Ha eq_refl).
    set (s1 := enter_state u a FlowRunContext da var_flow_run s).
    assert (heap s1 !! b = Some (OInstance TaskRunContext db)) as Hb1.
    { apply enter_state_framed_outside; [done| |done]. intros ->. congruence. }
    destruct (enter_state_mono u a _ da var_flow_run s Ha _ _ _ Ha) as [da1 Ha1].
    fold s1 in Ha1.
    destruct (enter_then_exit u b _ _ var_task_run s1 Hb1 eq_refl)
      as (s3 & Hrun & Hbind & Hmono).
    change (ContextModel_enter u b >> ContextModel_exit u b >> get_run_context u)
      with (bind (ContextModel_enter u b)
                 (λ _, bind (ContextModel_exit u b) (λ _, get_run_context u))).
    unfold bind in Hrun |- *.
    destruct (ContextModel_enter u b s1) as [s2 [r|e]]; [|done].
    rewrite Hrun.
    destruct (Hmono _ _ _ Ha1) as [da3 Ha3].
    rewrite (get_run_context_flow u s3 (VRef a)); [done| | |].
    + rewrite Hbind. cbn. by rewrite lookup_insert_ne.
    + rewrite Hbind. cbn. by rewrite lookup_insert_eq.
    + cbn. by rewrite Ha3.
Qed.

Lemma C2_task_context_takes_precedence_witness :
  (enter_enter_exit_resolve 0 2 6 sample).2 = Ok (VRef 2) ∧
  (let s := ((ContextModel_enter 0 2 >> ContextModel_enter 0 6) sample).1 in
   (get_run_context 0 s).2 = Ok (VRef 6)).
Proof.
  destruct sample_objects as (d2 & d5 & d6 & H2 & H5 & H6).
  split.
  - apply (proj2 C2_task_context_takes_precedence 0 sample 2 6 d2 d6 H2 H6).
    vm_compute; reflexivity.
  - cbn zeta.
    assert (wf ((ContextModel_enter 0 2 >> ContextModel_enter 0 6) sample).1) as Hwf.
    { unfold bind. pose proof (enter_robust wf 0 2 sample wf_robust wf_sample) as H.
      destruct (ContextModel_enter 0 2 sample) as [s1 [r|e]]; [|done].
      by apply enter_robust; [apply wf_robust|]. }
    destruct (proj1 C2_task_context_takes_precedence 0 _ (VRef 6) (VRef 2) Hwf)
      as (Hres & _); [vm_compute; reflexivity..|].
    by rewrite Hres.
Defined.

(** ** C3: failing outside of a run *)

(** C3: [get_run_context()] raises exactly when neither a task run context
    nor a flow run context is bound for the caller; with only a flow run
    context bound it returns that context; with neither bound it raises the
    [RuntimeError] whose message says that no run context is available, and
    returns nothing. *)
Theorem C3_get_run_context_raises_iff_unbound (u : nat) (s : state) :
  wf s →
  ((∃ e, (get_run_context u s).2 = Raised e) ↔
   bindings s !! (u, var_task_run) = None ∧ bindings s !! (u, var_flow_run) = None) ∧
  (∀ y, bindings s !! (u, var_task_run) = None →
        bindings s !! (u, var_flow_run) = Some y →
        get_run_context u s = (s, Ok y) ∧
        ∃ a d, y = VRef a ∧ heap s !! a = Some (OInstance FlowRunContext d)) ∧
  (bindings s !! (u, var_task_run) = None →
   bindings s !! (u, var_flow_run) = None →
   get_run_context u s = (s, Raised no_run_context)).
Proof.
  intros [Hwb Hwt]. split_and!.
  - split.
    + intros [e He].
      destruct (bindings s !! (u, var_task_run)) as [x|] eqn:Hx.
      { rewrite (get_run_context_task u s x) in He;
          [done..|eauto using valid_for_truthy]. }
      destruct (bindings s !! (u, var_flow_run)) as [y|] eqn:Hy; [|done].
      rewrite (get_run_context_flow u s y) in He;
        [done..|eauto using valid_for_truthy].
    + intros [Hx Hy]. rewrite get_run_context_none by done. eauto.
  - intros y Hx Hy. split; [eauto using get_run_context_flow, valid_for_truthy|].
    destruct (valid_for_class _ _ _ (Hwb _ _ _ Hy)) as (a & c & d & -> & Ha & ->).
    eauto.
  - apply get_run_context_none.
Qed.

Lemma C3_get_run_context_raises_iff_unbound_witness :
  wf sample ∧
  get_run_context 0 sample = (sample, Raised no_run_context) ∧
  (let s := (ContextModel_enter 0 5 sample).1 in
   get_run_context 0 s = (s, Ok (VRef 5))).
Proof.
  split; [apply wf_sample|]. split.
  - apply (C3_get_run_context_raises_iff_unbound 0 sample wf_sample);
      vm_compute; reflexivity.
  - cbn zeta.
    apply (C3_get_run_context_raises_iff_unbound 0 _
             (enter_robust wf 0 5 sample wf_robust wf_sample));
      vm_compute; reflexivity.
Defined.

(** ** C4: closed field set, no assignment *)

Lemma Total_ret {A} (a : A) : Total (ret a).
Proof. intros s. by exists s, a. Qed.

Lemma Total_bind {A B} (m : M A) (k : A → M B) :
  Total m → (∀ a, Total (k a)) → Total (bind m k).
Proof.
  intros Hm Hk s. unfold bind. destruct (Hm s) as (s1 & a & ->). apply Hk.
Qed.

Lemma Total_alloc o : Total (alloc o).
Proof. intros s. by eexists _, _. Qed.

Lemma Total_validate ty x : Total (pydantic.validate ty x).
Proof.
  intros s. destruct ty, x; cbn; try (by eexists _, _).
  all: destruct (heap s !! a) as [[]|]; try (by eexists _, _).
  all: try case_match; by eexists _, _.
Qed.

Lemma Total_call_factory f : Total (pydantic.call_factory f).
Proof.
  destruct f; cbn.
  - intros s. by eexists _, _.
  - apply Total_bind; [apply Total_alloc|intros; apply Total_ret].
  - apply Total_bind; [apply Total_alloc|intros; apply Total_ret].
Qed.

Lemma Total_field_step kwargs a f : Total (pydantic.field_step kwargs a f).
Proof.
  unfold pydantic.field_step. destruct a as [values errors].
  destruct (kwargs !! _).
  - apply Total_bind; [apply Total_validate|]. intros [w|]; apply Total_ret.
  - destruct (pydantic.field_default f); try apply Total_ret.
    apply Total_bind; [apply Total_call_factory|intros; apply Total_ret].
Qed.

Lemma Total_validate_fields kwargs fs a : Total (pydantic.validate_fields kwargs fs a).
Proof.
  revert a. induction fs as [|f fs IH]; intros a; cbn.
  - apply Total_ret.
  - apply Total_bind; [apply Total_field_step|done].
Qed.

Lemma validate_model_forbid fs kwargs s :
  ∃ s' values errors,
    pydantic.validate_model Config fs kwargs s =
      (s', Ok (values, errors ++ extra_errors fs kwargs)).
Proof.
  unfold pydantic.validate_model, bind.
  destruct (Total_validate_fields kwargs fs (∅, []) s) as (s' & [values errors] & ->).
  cbn. by exists s', values, errors.
Qed.

Lemma elem_of_extra_keys fs (kwargs : gmap string value) k :
  k ∈ pydantic.extra_keys fs kwargs ↔ k ∈ dom kwargs ∧ k ∉ pydantic.name <$> fs.
Proof.
  unfold pydantic.extra_keys.
  rewrite merge_sort_Permutation, elem_of_elements, elem_of_difference.
  by rewrite elem_of_list_to_set.
Qed.

Lemma setattr_eq self c d nm x s :
  heap s !! self = Some (OInstance c d) →
  setattr self nm x s =
    (s, Raised (if bool_decide (nm ∈ pydantic.name <$> fields c)
                then immutable_error else no_field_error)).
Proof.
  intros Hs. unfold setattr, pydantic.setattr, type_of, bind. rewrite Hs. cbn.
  rewrite Hs. cbn. by destruct (bool_decide (nm ∈ _)).
Qed.

(** C4, refuted as stated: not every attempt to mutate a field after
    construction fails. On a [TagsContext] constructed in the empty state
    (the instance at address 1, its [current_tags] the set at address 0),
    [current_tags.add("x")] succeeds and the set becomes [{"x"}]; on the flow
    run context at address 2 of the sample state,
    [task_run_futures.append(future)] succeeds and the list then holds the
    future. *)
Lemma C4_in_place_mutation_accepted :
  let s1 := (new TagsContext ∅ empty_state).1 in
  let future := VOpaque KPrefectFuture 0 in
  (new TagsContext ∅ empty_state).2 = Ok 1 ∧
  (getattr 1 "current_tags" s1).2 = Ok (VRef 0) ∧
  heap s1 !! 0 = Some (OSet ∅) ∧
  (set_add 0 "x" s1).2 = Ok tt ∧
  heap (set_add 0 "x" s1).1 !! 0 = Some (OSet {["x"]}) ∧
  list_field sample 2 "task_run_futures" = Some [] ∧
  (append_future 2 future sample).2 = Ok tt ∧
  list_field (append_future 2 future sample).1 2 "task_run_futures" = Some [future].
Proof. vm_compute. split_and!; reflexivity. Qed.

(** C4, as amended: for every context class, construction with a keyword
    that names no field of the class fails with a validation error that
    reports the keyword as extra, whatever the other keywords are; and
    assignment to an attribute of a constructed instance always fails and
    changes nothing: with the immutability error when the attribute is a
    field (such as [flow_run_id]), with the unknown-field error
    otherwise. *)
Theorem C4_extra_fields_and_assignment_rejected (c : class) :
  (∀ kwargs k s,
     k ∈ dom kwargs → k ∉ pydantic.name <$> fields c →
     ∃ errors, (new c kwargs s).2 = Raised (ValidationError errors) ∧
               (k, "value_error.extra") ∈ errors) ∧
  (∀ self d nm x s,
     heap s !! self = Some (OInstance c d) →
     (nm ∈ pydantic.name <$> fields c →
      setattr self nm x s = (s, Raised immutable_error)) ∧
     ∃ e, setattr self nm x s = (s, Raised e)).
Proof.
  split.
  - intros kwargs k s Hk Hnf.
    unfold new, pydantic.init, bind.
    destruct (validate_model_forbid (fields c) kwargs s) as (s' & values & errors & ->).
    cbn.
    assert ((k, "value_error.extra") ∈ errors ++ extra_errors (fields c) kwargs) as Hin.
    { apply elem_of_app. right. unfold extra_errors.
      apply list_elem_of_fmap. exists k. split; [done|].
      by apply elem_of_extra_keys. }
    destruct (errors ++ extra_errors (fields c) kwargs) as [|e l] eqn:Heq.
    + by apply elem_of_nil in Hin.
    + cbn. eauto.
  - intros self d nm x s Hs. rewrite (setattr_eq _ _ _ _ _ _ Hs). split; [|eauto].
    intros Hin. by rewrite bool_decide_eq_true_2.
Qed.

Lemma C4_extra_fields_and_assignment_rejected_witness :
  (∃ errors,
     (new FlowRunContext (<["retries" := VNone]> flow_kwargs) empty_state).2 =
       Raised (ValidationError errors) ∧
     ("retries", "value_error.extra") ∈ errors) ∧
  setattr 2 "flow_run_id" (VUUID 9) sample = (sample, Raised immutable_error).
Proof.
  destruct sample_objects as (d2 & _ & _ & H2 & _).
  split.
  - apply (proj1 (C4_extra_fields_and_assignment_rejected FlowRunContext)).
    + apply (bool_decide_unpack _). vm_compute. exact I.
    + apply (bool_decide_unpack _). vm_compute. exact I.
  - apply (proj2 (C4_extra_fields_and_assignment_rejected FlowRunContext) 2 d2 _ _ _ H2).
    apply (bool_decide_unpack _). vm_compute. exact I.
Defined.

(** ** C5: [TagsContext.get] always answers *)

(** C5: [TagsContext.get()] returns a value in every state, whatever is
    bound; when nothing is bound the value is a [TagsContext] whose
    [current_tags] is an empty set; and in a well-formed state the value is
    always an instance of [TagsContext], never [None]. *)
Theorem C5_TagsContext_get_never_fails (u : nat) (s : state) :
  (∃ s' x, TagsContext_get u s = (s', Ok x) ∧
           (wf s → ∃ a d, x = VRef a ∧ heap s' !! a = Some (OInstance TagsContext d))) ∧
  (bindings s !! (u, var_tags) = None → empty_default (TagsContext_get u s)).
Proof.
  split; [|apply TagsContext_get_unbound].
  rewrite TagsContext_get_eq. eexists _, _. split; [done|].
  intros [Hwb _]. cbn.
  destruct (bindings s !! (u, var_tags)) as [x|] eqn:Hx; cbn.
  - destruct (valid_for_class _ _ _ (Hwb _ _ _ Hx)) as (a & c & d & -> & Ha & ->).
    exists a, d. split; [done|]. by apply lookup_app_l_Some.
  - eexists _, _. split; [done|]. apply lookup_app_two_snd.
Qed.

Lemma C5_TagsContext_get_never_fails_witness :
  empty_default (TagsContext_get 0 sample) ∧
  ∃ s' x, TagsContext_get 0 sample = (s', Ok x) ∧
          ∃ a d, x = VRef a ∧ heap s' !! a = Some (OInstance TagsContext d).
Proof.
  split.
  - apply (proj2 (C5_TagsContext_get_never_fails 0 sample)). vm_compute; reflexivity.
  - destruct (proj1 (C5_TagsContext_get_never_fails 0 sample)) as (s' & x & Heq & H).
    exists s', x. split; [exact Heq|]. exact (H wf_sample).
Defined.

(** ** C6: leaving out of order *)




(** ** C7: when [start_time] is taken *)

Lemma field_step_keeps kwargs a f s s' a' k :
  pydantic.field_step kwargs a f s = (s', Ok a') →
  pydantic.name f ≠ k → a'.1 !! k = a.1 !! k.
Proof.
  unfold pydantic.field_step. destruct a as [values errors]. intros H Hne.
  destruct (kwargs !! pydantic.name f) as [x|].
  - unfold bind in H. destruct (pydantic.validate _ _ s) as [s1 [[w|]|e]];
      unfold ret in H; simplify_eq; cbn; [by rewrite lookup_insert_ne|done].
  - destruct (pydantic.field_default f) as [|w|fa]; unfold ret in H.
    + by simplify_eq.
    + simplify_eq. cbn. by rewrite lookup_insert_ne.
    + unfold bind in H. destruct (pydantic.call_factory fa s) as [s1 [w|e]];
        simplify_eq. cbn. by rewrite lookup_insert_ne.
Qed.

Lemma validate_fields_keeps kwargs fs a s s' a' k :
  pydantic.validate_fields kwargs fs a s = (s', Ok a') →
  k ∉ pydantic.name <$> fs → a'.1 !! k = a.1 !! k.
Proof.
  revert a s. induction fs as [|f fs IH]; intros a s H Hk; cbn in *.
  - unfold ret in H. by simplify_eq.
  - apply not_elem_of_cons in Hk as [Hne Hk]. unfold bind in H.
    destruct (pydantic.field_step kwargs a f s) as [s1 [a1|e]] eqn:Hstep; [|done].
    rewrite (IH _ _ H Hk). eapply field_step_keeps; eauto.
Qed.

Lemma new_start_time c rest kwargs s s1 r :
  fields c = start_time :: rest →
  "start_time" ∉ pydantic.name <$> rest →
  kwargs !! "start_time" = None →
  new c kwargs s = (s1, Ok r) →
  has_field r c "start_time" (VDateTime (clock s)) s1.
Proof.
  intros Hf Hrest Hkw H.
  unfold new, pydantic.init, pydantic.validate_model in H. rewrite Hf in H.
  unfold bind in H. cbn in H. rewrite Hkw in H. cbn in H.
  destruct (pydantic.validate_fields kwargs rest _ s) as [s' [[values errors]|e]] eqn:Hv;
    [|done].
  apply validate_fields_keeps with (k := "start_time") in Hv; [|done].
  cbn in Hv, H. rewrite lookup_insert_eq in Hv.
  destruct (errors ++ _) as [|? ?]; cbn in H; [|done].
  injection H as <- <-. exists values. split; [|done].
  cbn. by apply list_lookup_middle.
Qed.

(** C7, refuted as stated: a flow run context constructed when the clock
    reads 100 and entered when it reads 105 has [start_time] 100, not the
    moment of the enter. *)
Lemma C7_start_time_is_not_enter_time :
  let s0 := mkState ∅ [] 100 in
  let s1 := (new FlowRunContext flow_kwargs s0).1 in
  let s2 := (sleep 5 s1).1 in
  let s3 := (ContextModel_enter 0 2 s2).1 in
  (new FlowRunContext flow_kwargs s0).2 = Ok 2 ∧
  clock s2 = 105%Z ∧
  (ContextModel_enter 0 2 s2).2 = Ok 2 ∧
  clock s3 = 105%Z ∧
  (getattr 2 "start_time" s3).2 = Ok (VDateTime 100).
Proof. vm_compute. split_and!; reflexivity. Qed.

(** C7, as amended: for every run context (plain, flow or task)
    [start_time] is taken at construction: when the caller passes none it is
    the clock reading at the moment the instance is constructed. Entering the
    context does not touch it, and neither does any code run afterwards, so
    it is set exactly once per instance. *)
Theorem C7_start_time_set_at_construction
    (c : class) (kwargs : gmap string value) (s s1 : state) (r : ref) :
  start_time ∈ fields c →
  kwargs !! "start_time" = None →
  new c kwargs s = (s1, Ok r) →
  has_field r c "start_time" (VDateTime (clock s)) s1 ∧
  (∀ u self, has_field r c "start_time" (VDateTime (clock s))
               (ContextModel_enter u self s1).1) ∧
  (∀ u p, has_field r c "start_time" (VDateTime (clock s)) (exec u p s1).1).
Proof.
  intros Hin Hkw Hnew.
  assert (has_field r c "start_time" (VDateTime (clock s)) s1) as H1.
  { destruct c; cbn in Hin.
    - by apply elem_of_nil in Hin.
    - eapply new_start_time; [reflexivity| |done..]. by apply not_elem_of_nil.
    - eapply new_start_time; [reflexivity| |done..].
      apply (bool_decide_unpack _). vm_compute. exact I.
    - eapply new_start_time; [reflexivity| |done..].
      apply (bool_decide_unpack _). vm_compute. exact I.
    - apply list_elem_of_singleton in Hin. discriminate Hin. }
  assert (robust (has_field r c "start_time" (VDateTime (clock s)))) as Hrob
    by (by apply has_field_robust).
  split_and!; [done| |].
  - intros u self. by apply enter_robust.
  - intros u p. by apply exec_robust.
Qed.

Lemma C7_start_time_set_at_construction_witness :
  let s0 := mkState ∅ [] 100 in
  let s1 := (new TaskRunContext task_kwargs s0).1 in
  has_field 0 TaskRunContext "start_time" (VDateTime 100)
    (exec 0 (Seq (Do (Sleep 5)) (With 0 (Do (SetAttr 0 "start_time" (VDateTime 105))))) s1).1.
Proof.
  cbn zeta.
  refine (proj2 (proj2 (C7_start_time_set_at_construction TaskRunContext task_kwargs
            (mkState ∅ [] 100) (new TaskRunContext task_kwargs (mkState ∅ [] 100)).1 0
            _ _ _)) 0 _).
  - apply (bool_decide_unpack _). vm_compute. exact I.
  - vm_compute; reflexivity.
  - vm_compute; reflexivity.
Defined.

(** ** C8: one token slot per instance *)

Lemma exit_used u self cl d v a t s :
  heap s !! self = Some (OInstance cl d) →
  class_var cl = Some v →
  d !! "__token" = Some (VRef a) →
  heap s !! a = Some (OToken t) →
  tok_used t = true →
  ContextModel_exit u self s = (s, Raised token_used_error).
Proof.
  intros Hself Hv Htok Ha Hused.
  unfold ContextModel_exit, self_var, type_of, cls_var, getattr, bind.
  rewrite Hself, Hv. cbn. rewrite Hself, Htok. cbn.
  unfold contextvars.reset. by rewrite Ha, Hused.
Qed.

Lemma enter_state_length u self cl d v s :
  length (heap (enter_state u self cl d v s)) = S (length (heap s)).
Proof. cbn. rewrite length_insert, length_app. cbn. lia. Qed.

(** C8: entering an instance a second time before leaving it overwrites the
    token stored on it, so the instance then holds only the second token.
    The first exit consumes that token and succeeds; the second exit finds
    the same, consumed, token and raises; the first token is never consumed
    and the variable stays bound to the instance instead of returning to
    what it was. Nesting two distinct instances, in contrast, restores the
    bindings. *)
Theorem C8_reentry_overwrites_token
    (u : nat) (self : ref) (cl : class) (d : gmap string value)
    (v : ContextVar) (s : state) :
  heap s !! self = Some (OInstance cl d) →
  class_var cl = Some v →
  let n := length (heap s) in
  let first := mkToken u v (bindings s !! (u, v)) false in
  (∃ s2 d2,
     (ContextModel_enter u self >> ContextModel_enter u self) s = (s2, Ok self) ∧
     heap s2 !! self = Some (OInstance cl d2) ∧
     d2 !! "__token" = Some (VRef (S n)) ∧
     heap s2 !! n = Some (OToken first) ∧
     ∃ s3,
       ContextModel_exit u self s2 = (s3, Ok tt) ∧
       ContextModel_exit u self s3 = (s3, Raised token_used_error) ∧
       heap s3 !! n = Some (OToken first) ∧
       bindings s3 !! (u, v) = Some (VRef self)) ∧
  (exec u (With self (With self Pass)) s).2 = Raised token_used_error ∧
  bindings (exec u (With self (With self Pass)) s).1 !! (u, v) = Some (VRef self) ∧
  (∀ other, other ≠ self →
     bindings (exec u (With self (With other Pass)) s).1 = bindings s).
Proof.
  intros Hs Hv n first.
  pose proof (lookup_lt_Some _ _ _ Hs) as Hlt.
  set (s1 := enter_state u self cl d v s).
  set (d1 := <["__token" := VRef n]> d).
  assert (heap s1 !! self = Some (OInstance cl d1)) as Hs1.
  { cbn. apply list_lookup_insert_eq. rewrite length_app. lia. }
  assert (heap s1 !! n = Some (OToken first)) as Hn1.
  { cbn. rewrite list_lookup_insert_ne by lia. by apply list_lookup_middle. }
  assert (length (heap s1) = S n) as Hlen1 by apply enter_state_length.
  set (s2 := enter_state u self cl d1 v s1).
  set (second := mkToken u v (bindings s1 !! (u, v)) false).
  pose proof (enter_state_can_exit u self cl d1 v s1 Hs1 Hv) as Hc.
  fold s2 second in Hc. rewrite Hlen1 in Hc.
  set (s3 := exit_state u v (S n) second s2).
  assert (heap s2 !! n = Some (OToken first)) as Hn2.
  { by apply (enter_state_framed_outside u self cl d1 v s1 Hs1). }
  destruct Hc as (cl' & d2 & Hs2 & Hv2 & Hd2 & Ha2 & Hrest).
  assert (can_exit u self s2 v (S n) second) as Hc by (exists cl', d2; done).
  assert (cl' = cl) as ->.
  { destruct (enter_state_mono u self cl d1 v s1 Hs1 _ _ _ Hs1) as [d' Hd'].
    fold s2 in Hd'. congruence. }
  assert (heap s3 !! self = Some (OInstance cl d2)) as Hs3
    by (eapply exit_state_inst; eauto).
  assert (heap s3 !! S n = Some (OToken (consumed second))) as Ha3.
  { cbn. apply list_lookup_insert_eq. by eapply lookup_lt_Some. }
  assert (heap s3 !! n = Some (OToken first)) as Hn3.
  { cbn. by rewrite list_lookup_insert_ne by lia. }
  assert (bindings s3 !! (u, v) = Some (VRef self)) as Hb3.
  { cbn. unfold restore. rewrite lookup_insert_eq. by rewrite lookup_insert_eq. }
  assert (ContextModel_exit u self s3 = (s3, Raised token_used_error)) as Hex3
    by (eapply exit_used; eauto).
  assert ((ContextModel_enter u self >> ContextModel_enter u self) s = (s2, Ok self))
    as Hee.
  { unfold bind. rewrite (enter_ok _ _ _ _ _ _ Hs Hv). fold s1.
    by rewrite (enter_ok _ _ _ _ _ _ Hs1 Hv). }
  assert (exec u (With self (With self Pass)) s = (s3, Raised token_used_error))
    as Hexec.
  { cbn. unfold bind. rewrite (enter_ok _ _ _ _ _ _ Hs Hv). fold s1.
    rewrite (enter_ok _ _ _ _ _ _ Hs1 Hv). fold s2. cbn.
    rewrite (exit_ok _ _ _ _ _ _ Hc). fold s3. by rewrite Hex3. }
  split_and!.
  - exists s2, d2. split_and!; [done..|].
    exists s3. split_and!; [by apply exit_ok|done..].
  - by rewrite Hexec.
  - by rewrite Hexec.
  - intros other Hne. apply exec_framed. cbn.
    rewrite bool_decide_eq_true_2.
    + rewrite bool_decide_eq_true_2; [done|]. apply not_elem_of_empty.
    + rewrite not_elem_of_union, not_elem_of_singleton.
      split; [done|]. apply not_elem_of_empty.
Qed.

Lemma C8_reentry_overwrites_token_witness :
  (exec 0 (With 5 (With 5 Pass)) sample).2 = Raised token_used_error ∧
  bindings (exec 0 (With 5 (With 5 Pass)) sample).1 !! (0, var_flow_run) = Some (VRef 5) ∧
  bindings (exec 0 (With 5 (With 2 Pass)) sample).1 = bindings sample.
Proof.
  destruct sample_objects as (d2 & d5 & d6 & H2 & H5 & H6).
  destruct (C8_reentry_overwrites_token 0 5 FlowRunContext d5 var_flow_run sample H5 eq_refl)
    as (_ & Hr & Hb & Hother).
  split_and!; [exact Hr|exact Hb|]. apply Hother. lia.
Defined.

(** ** C10: the default of [TagsContext.get] is fresh and never bound *)

(** C10: when no [TagsContext] is bound, [TagsContext.get()] builds a new
    instance (with a new, empty set) and returns it without binding it: the
    bindings are unchanged, so a later call again finds nothing bound and
    returns another, distinct instance; and adding a tag to the set of the
    returned default leaves later calls returning a default whose set is a
    different object and empty. *)
Theorem C10_default_is_fresh_and_unbound (u : nat) (s : state) :
  bindings s !! (u, var_tags) = None →
  let n := length (heap s) in
  ∃ s1,
    TagsContext_get u s = (s1, Ok (VRef (S n))) ∧
    bindings s1 = bindings s ∧
    heap s1 !! S n = Some (OInstance TagsContext (default_tags_dict n)) ∧
    heap s1 !! n = Some (OSet ∅) ∧
    (∃ s2 a2,
       TagsContext_get u s1 = (s2, Ok (VRef a2)) ∧ a2 ≠ S n ∧
       bindings s2 !! (u, var_tags) = None) ∧
    (∀ x, ∃ s1',
       set_add n x s1 = (s1', Ok tt) ∧
       heap s1' !! n = Some (OSet {[x]}) ∧
       ∃ s3 a3 b3 d3,
         TagsContext_get u s1' = (s3, Ok (VRef a3)) ∧ a3 ≠ S n ∧
         heap s3 !! a3 = Some (OInstance TagsContext d3) ∧
         d3 !! "current_tags" = Some (VRef b3) ∧ b3 ≠ n ∧
         heap s3 !! b3 = Some (OSet ∅)).
Proof.
  intros Hu n.
  set (s1 := set_heap (heap s ++ [OSet ∅; OInstance TagsContext (default_tags_dict n)]) s).
  assert (length (heap s1) = S (S n)) as Hlen1.
  { cbn. rewrite length_app. cbn. lia. }
  assert (heap s1 !! n = Some (OSet ∅)) as Hn1 by apply lookup_app_two_fst.
  exists s1. split_and!.
  - by rewrite TagsContext_get_eq, Hu.
  - done.
  - apply lookup_app_two_snd.
  - done.
  - rewrite TagsContext_get_eq. change (bindings s1) with (bindings s).
    rewrite Hu, Hlen1. cbn. eexists _, _. split_and!; [done|lia|done].
  - intros x. unfold set_add, store. rewrite Hn1.
    set (s1' := set_heap (<[n := OSet ({[x]} ∪ ∅)]> (heap s1)) s1).
    assert (length (heap s1') = S (S n)) as Hlen1'.
    { unfold s1'. cbn -[s1]. by rewrite length_insert. }
    exists s1'. split; [done|]. split.
    + unfold s1'. cbn -[s1]. rewrite (right_id_L ∅ (∪)).
      apply list_lookup_insert_eq. lia.
    + rewrite TagsContext_get_eq. change (bindings s1') with (bindings s).
      rewrite Hu. cbn [default].
      exists (set_heap (heap s1' ++ [OSet ∅; OInstance TagsContext
                                       (default_tags_dict (length (heap s1')))]) s1'),
        (S (length (heap s1'))), (length (heap s1')),
        (default_tags_dict (length (heap s1'))).
      split_and!.
      * done.
      * lia.
      * apply lookup_app_two_snd.
      * apply lookup_insert_eq.
      * lia.
      * apply lookup_app_two_fst.
Qed.

Lemma C10_default_is_fresh_and_unbound_witness :
  bindings sample !! (0, var_tags) = None ∧
  ∃ s1,
    TagsContext_get 0 sample = (s1, Ok (VRef (S (length (heap sample))))) ∧
    bindings s1 = bindings sample ∧
    heap s1 !! length (heap sample) = Some (OSet ∅).
Proof.
  split; [vm_compute; reflexivity|].
  destruct (C10_default_is_fresh_and_unbound 0 sample) as (s1 & Hget & Hb & _ & Hn & _);
    [vm_compute; reflexivity|].
  exists s1. split_and!; assumption.
Defined.

(** * Further properties of the module *)

(** ** Execution units and variables are kept apart *)

Lemma exec_robust_on u P : robust_on u P → ∀ p s, P s → P (exec u p s).1.
Proof.
  intros (Hb & Hent & Hex) p.
  induction p as [|e|a|p IHp q IHq|c body IH|body IHb h IHh]; intros s Hs; cbn.
  - done.
  - done.
  - eapply Hb; [apply Benign_run_action|done].
  - unfold bind. specialize (IHp s Hs).
    destruct (exec u p s) as [s1 [[]|e]]; cbn in *; eauto.
  - unfold bind.
    destruct (enter_cases u c s) as [(cl & d & v & Hc & Hv & ->)|[e ->]]; [|done].
    specialize (IH _ (Hent _ _ _ _ _ Hc Hv Hs)).
    destruct (exec u body _) as [s2 r2]; cbn in *.
    destruct (exit_cases u c s2) as [(v' & a & t & Hce & ->)|[e ->]]; cbn; eauto.
  - specialize (IHb s Hs).
    destruct (exec u body s) as [s1 [[]|e]]; cbn in *; eauto.
Qed.

(** X1: whatever code a unit runs, and however it ends, the bindings of
    every other unit stay as they were. *)
Theorem X1_other_units_untouched (u u' : nat) (v : ContextVar) (p : stmt) (s : state) :
  u ≠ u' →
  bindings (exec u p s).1 !! (u', v) = bindings s !! (u', v).
Proof.
  intros Hne.
  apply (exec_robust_on u (λ s', bindings s' !! (u', v) = bindings s !! (u', v)));
    [|done].
  split_and!.
  - intros s1 s2 (Hb & _) H. by rewrite Hb.
  - intros self cl d v0 s1 _ _ H. cbn. rewrite lookup_insert_ne; [done|]. congruence.
  - intros self v0 a t s1 _ H. cbn. unfold restore. destruct (tok_oldval t).
    + rewrite lookup_insert_ne; [done|]. congruence.
    + rewrite lookup_delete_ne; [done|]. congruence.
Qed.

Lemma X1_other_units_untouched_witness :
  0 ≠ 1 ∧
  bindings (exec 0 (With 2 (With 2 Pass)) sample).1 !! (1, var_flow_run) =
    bindings sample !! (1, var_flow_run).
Proof.
  split; [lia|]. apply (X1_other_units_untouched 0 1). lia.
Defined.

(** X2: entering or leaving an instance writes one binding only, that of
    the calling unit for the variable of the instance's class; every other
    (unit, variable) pair keeps its value, whether the call succeeds or
    raises. *)
Theorem X2_scope_ops_touch_one_binding
    (u : nat) (self : ref) (cl : class) (d : gmap string value) (v : ContextVar)
    (s : state) (u' : nat) (v' : ContextVar) :
  heap s !! self = Some (OInstance cl d) →
  class_var cl = Some v →
  (u', v') ≠ (u, v) →
  bindings (ContextModel_enter u self s).1 !! (u', v') = bindings s !! (u', v') ∧
  bindings (ContextModel_exit u self s).1 !! (u', v') = bindings s !! (u', v').
Proof.
  intros Hs Hv Hne. split.
  - rewrite (enter_ok _ _ _ _ _ _ Hs Hv). cbn. by rewrite lookup_insert_ne.
  - destruct (exit_cases u self s) as [(v0 & a & t & Hc & ->)|[e ->]]; [|done].
    destruct Hc as (cl0 & d0 & Hs0 & Hv0 & _).
    assert (v0 = v) as -> by congruence.
    cbn. unfold restore. destruct (tok_oldval t).
    + by rewrite lookup_insert_ne.
    + by rewrite lookup_delete_ne.
Qed.

Lemma X2_scope_ops_touch_one_binding_witness :
  let s1 := (ContextModel_enter 0 2 sample).1 in
  bindings (ContextModel_enter 0 6 s1).1 !! (0, var_flow_run) =
    bindings s1 !! (0, var_flow_run).
Proof.
  cbn zeta.
  assert (∃ d, heap (ContextModel_enter 0 2 sample).1 !! 6 =
               Some (OInstance TaskRunContext d)) as [d Hd]
    by (vm_compute; eexists; reflexivity).
  apply (X2_scope_ops_touch_one_binding 0 6 TaskRunContext d var_task_run _
           0 var_flow_run Hd eq_refl).
  discriminate.
Defined.

Lemma exit_other_context u u' self s v a t :
  can_exit u self s v a t →
  u' ≠ u →
  ContextModel_exit u' self s = (s, Raised other_context_error).
Proof.
  intros (cl & d & Hself & Hv & Htok & Ha & Hused & Hvar & Hctx) Hne.
  unfold ContextModel_exit, self_var, type_of, cls_var, getattr, bind.
  rewrite Hself, Hv. cbn. rewrite Hself, Htok. cbn.
  unfold contextvars.reset. rewrite Ha, Hused.
  rewrite bool_decide_eq_true_2 by done.
  rewrite bool_decide_eq_false_2 by congruence. reflexivity.
Qed.

(** X3: an instance entered by one unit cannot be left by another: the
    call raises the different-context error and changes nothing, so the
    entering unit can still leave. *)
Theorem X3_exit_on_other_unit_rejected
    (u u' : nat) (self : ref) (s : state) (v : ContextVar) (a : ref) (t : Token) :
  can_exit u self s v a t →
  u' ≠ u →
  ContextModel_exit u' self s = (s, Raised other_context_error) ∧
  can_exit u self (ContextModel_exit u' self s).1 v a t.
Proof.
  intros Hc Hne. rewrite (exit_other_context _ _ _ _ _ _ _ Hc Hne). by split.
Qed.

Lemma X3_exit_on_other_unit_rejected_witness :
  let s1 := (ContextModel_enter 0 2 sample).1 in
  ContextModel_exit 1 2 s1 = (s1, Raised other_context_error).
Proof.
  cbn zeta.
  refine (proj1 (X3_exit_on_other_unit_rejected 0 1 2 _ var_flow_run 7
                   (mkToken 0 var_flow_run None false) _ _)); [|lia].
  vm_compute. do 2 eexists. split_and!; reflexivity.
Defined.

(** ** Construction *)

Lemma new_inv c kwargs s s1 r :
  new c kwargs s = (s1, Ok r) →
  ∃ s' values,
    benign s s' ∧
    s1 = set_heap (heap s' ++ [OInstance c values]) s' ∧
    r = length (heap s') ∧
    (∀ k, k ∉ pydantic.name <$> fields c → values !! k = None).
Proof.
  intros H. unfold new, pydantic.init, pydantic.validate_model, bind in H.
  pose proof (Benign_validate_fields kwargs (fields c) (∅, []) s) as Hben.
  destruct (pydantic.validate_fields kwargs (fields c) (∅, []) s)
    as [s' [[values errors]|e]] eqn:Hv; [|done].
  cbn in H, Hben. destruct (errors ++ _) as [|? ?]; cbn in H; [|done].
  unfold alloc in H. injection H as <- <-.
  exists s', values. split_and!; [done..|].
  intros k Hk. pose proof (validate_fields_keeps _ _ _ _ _ _ k Hv Hk) as Hkeep.
  cbn in Hkeep. by rewrite Hkeep, lookup_empty.
Qed.

Lemma token_is_no_field c : "__token" ∉ pydantic.name <$> fields c.
Proof. destruct c; apply (bool_decide_unpack _); vm_compute; exact I. Qed.

(** X4: a context that was constructed but never entered cannot be left:
    [__exit__] raises [AttributeError] for the missing token and changes
    nothing. *)
Theorem X4_exit_before_enter_rejected
    (u : nat) (c : class) (v : ContextVar) (kwargs : gmap string value)
    (s s1 : state) (r : ref) :
  class_var c = Some v →
  new c kwargs s = (s1, Ok r) →
  ContextModel_exit u r s1 = (s1, Raised no_token_error).
Proof.
  intros Hv Hnew.
  destruct (new_inv _ _ _ _ _ Hnew) as (s' & values & _ & -> & -> & Hnone).
  unfold ContextModel_exit, self_var, type_of, cls_var, getattr, bind. cbn.
  rewrite list_lookup_middle by done. rewrite Hv. cbn.
  rewrite list_lookup_middle by done.
  by rewrite (Hnone _ (token_is_no_field c)).
Qed.

Lemma X4_exit_before_enter_rejected_witness :
  let s1 := (new TagsContext ∅ empty_state).1 in
  ContextModel_exit 0 1 s1 = (s1, Raised no_token_error).
Proof.
  cbn zeta.
  apply (X4_exit_before_enter_rejected 0 TagsContext var_tags ∅ empty_state);
    [reflexivity|vm_compute; reflexivity].
Defined.

(** X5: [ContextModel] and [RunContext] declare no context variable, so an
    instance of either cannot be used as a scope: the [with] statement
    raises [AttributeError] before its body runs and leaves the state as it
    was, and [__exit__] and [get] raise the same error. *)
Theorem X5_base_classes_are_no_scopes
    (u : nat) (self : ref) (cl : class) (d : gmap string value)
    (body : stmt) (s : state) :
  cl = ContextModel ∨ cl = RunContext →
  heap s !! self = Some (OInstance cl d) →
  exec u (With self body) s = (s, Raised no_var_error) ∧
  ContextModel_exit u self s = (s, Raised no_var_error) ∧
  ContextModel_get u cl s = (s, Raised no_var_error).
Proof.
  intros Hcl Hs.
  assert (class_var cl = None) as Hv by (by destruct Hcl as [-> | ->]).
  split_and!.
  - cbn. unfold bind, ContextModel_enter, self_var, type_of, cls_var, bind.
    by rewrite Hs, Hv.
  - unfold ContextModel_exit, self_var, type_of, cls_var, bind. by rewrite Hs, Hv.
  - by rewrite ContextModel_get_eq, Hv.
Qed.

Lemma X5_base_classes_are_no_scopes_witness :
  let s1 := (new RunContext ∅ empty_state).1 in
  exec 0 (With 0 (Do (Sleep 1))) s1 = (s1, Raised no_var_error).
Proof.
  cbn zeta.
  assert (∃ d, heap (new RunContext ∅ empty_state).1 !! 0 =
               Some (OInstance RunContext d)) as [d Hd]
    by (vm_compute; eexists; reflexivity).
  exact (proj1 (X5_base_classes_are_no_scopes 0 0 RunContext d (Do (Sleep 1)) _
                  (or_intror eq_refl) Hd)).
Defined.

(** ** How scopes compose *)

(** X6: a scope neither swallows nor adds errors. When the instance can be
    entered and is not entered again inside its own scope, the [with]
    statement ends exactly as its body ends: normally if the body does,
    with the body's exception otherwise. *)
Theorem X6_with_ends_as_its_body
    (u : nat) (c : ref) (body : stmt) (cl : class) (d : gmap string value)
    (v : ContextVar) (s : state) :
  heap s !! c = Some (OInstance cl d) →
  class_var cl = Some v →
  no_reentry (With c body) = true →
  (exec u (With c body) s).2 = (exec u body (enter_state u c cl d v s)).2.
Proof.
  intros Hs Hv Hnr. cbn in Hnr.
  apply andb_true_iff in Hnr as [Hc Hbody]. apply bool_decide_eq_true_1 in Hc.
  cbn. unfold bind. rewrite (enter_ok _ _ _ _ _ _ Hs Hv).
  pose proof (exec_framed u body (enter_state u c cl d v s) Hbody) as Hfr.
  destruct (exec u body _) as [s2 r]; cbn in Hfr |- *.
  pose proof (enter_state_can_exit u c cl d v s Hs Hv) as Hexit.
  eapply can_exit_framed in Hexit; [|done..].
  rewrite (exit_ok _ _ _ _ _ _ Hexit). by destruct r.
Qed.

Lemma X6_with_ends_as_its_body_witness :
  (exec 0 (With 2 (With 5 (Raise CancelledError))) sample).2 = Raised CancelledError.
Proof.
  destruct sample_objects as (d2 & d5 & d6 & H2 & H5 & H6).
  rewrite (X6_with_ends_as_its_body 0 2 _ FlowRunContext d2 var_flow_run sample H2 eq_refl);
    [|vm_compute; reflexivity].
  vm_compute. reflexivity.
Defined.

(** X7: an instance can be used for one scope after another, but not left
    twice. After enter and exit the bindings are back, a second exit raises
    the used-token error and changes nothing, and a new enter and exit
    succeed again and restore the bindings. *)
Theorem X7_leave_once_reuse_later
    (u : nat) (self : ref) (cl : class) (d : gmap string value)
    (v : ContextVar) (s : state) :
  heap s !! self = Some (OInstance cl d) →
  class_var cl = Some v →
  ∃ s2,
    (ContextModel_enter u self >> ContextModel_exit u self) s = (s2, Ok tt) ∧
    bindings s2 = bindings s ∧
    ContextModel_exit u self s2 = (s2, Raised token_used_error) ∧
    ∃ s4,
      (ContextModel_enter u self >> ContextModel_exit u self) s2 = (s4, Ok tt) ∧
      bindings s4 = bindings s.
Proof.
  intros Hs Hv. pose proof (lookup_lt_Some _ _ _ Hs) as Hlt.
  pose proof (enter_state_can_exit u self cl d v s Hs Hv) as Hc.
  set (s1 := enter_state u self cl d v s) in *.
  set (t := mkToken u v (bindings s !! (u, v)) false) in *.
  set (s2 := exit_state u v (length (heap s)) t s1).
  destruct Hc as (cl1 & d1 & Hs1 & Hv1 & Hd1 & Ha1 & Hrest).
  assert (can_exit u self s1 v (length (heap s)) t) as Hc by (exists cl1, d1; done).
  assert (heap s2 !! self = Some (OInstance cl1 d1)) as Hs2
    by (eapply exit_state_inst; eauto).
  assert (heap s2 !! length (heap s) = Some (OToken (consumed t))) as Ha2.
  { cbn. apply list_lookup_insert_eq. by eapply lookup_lt_Some. }
  exists s2. split_and!.
  - unfold bind. rewrite (enter_ok _ _ _ _ _ _ Hs Hv). fold s1.
    by rewrite (exit_ok _ _ _ _ _ _ Hc).
  - cbn. apply restore_insert.
  - eapply exit_used; eauto.
  - destruct (enter_then_exit u self cl1 d1 v s2 Hs2 Hv1) as (s4 & Hrun & Hb & _).
    exists s4. split; [done|]. rewrite Hb. cbn. apply restore_insert.
Qed.

Lemma X7_leave_once_reuse_later_witness :
  ∃ s2,
    (ContextModel_enter 0 6 >> ContextModel_exit 0 6) sample = (s2, Ok tt) ∧
    ContextModel_exit 0 6 s2 = (s2, Raised token_used_error).
Proof.
  destruct sample_objects as (d2 & d5 & d6 & H2 & H5 & H6).
  destruct (X7_leave_once_reuse_later 0 6 TaskRunContext d6 var_task_run sample H6 eq_refl)
    as (s2 & Hrun & _ & Hex & _).
  exists s2. split; assumption.
Defined.

Lemma can_exit_enter_other u a s v n t u' b cl db v' :
  can_exit u a s v n t →
  heap s !! b = Some (OInstance cl db) →
  a ≠ b →
  can_exit u a (enter_state u' b cl db v' s) v n t.
Proof.
  intros (cla & da & Ha & Hva & Hda & Hn & Hrest) Hb Hne.
  destruct (enter_state_framed_outside u' b cl db v' s Hb) as [Ht Hi].
  exists cla, da. split; [by apply Hi|]. split; [done|]. split; [done|].
  split; [by apply Ht|done].
Qed.

Lemma can_exit_exit_other u a s v n t u' b v' n' t' :
  can_exit u a s v n t →
  can_exit u' b s v' n' t' →
  n ≠ n' →
  can_exit u a (exit_state u' v' n' t' s) v n t.
Proof.
  intros (cla & da & Ha & Hva & Hda & Hn & Hrest) Hcb Hne.
  exists cla, da. split; [by eauto using exit_state_inst|].
  split; [done|]. split; [done|]. split; [|done].
  cbn. by rewrite list_lookup_insert_ne.
Qed.

(** X8: scopes of one class shadow each other. With two distinct instances
    of a class entered one inside the other, the inner one is what is bound;
    leaving the inner one makes the outer one bound again; leaving the outer
    one brings back the bindings from before. *)
Theorem X8_inner_scope_shadows_outer
    (u : nat) (a b : ref) (cl : class) (da db : gmap string value)
    (v : ContextVar) (s : state) :
  heap s !! a = Some (OInstance cl da) →
  heap s !! b = Some (OInstance cl db) →
  class_var cl = Some v →
  a ≠ b →
  ∃ s2 s3 s4,
    (ContextModel_enter u a >> ContextModel_enter u b) s = (s2, Ok b) ∧
    bindings s2 !! (u, v) = Some (VRef b) ∧
    ContextModel_exit u b s2 = (s3, Ok tt) ∧
    bindings s3 !! (u, v) = Some (VRef a) ∧
    ContextModel_exit u a s3 = (s4, Ok tt) ∧
    bindings s4 = bindings s.
Proof.
  intros Ha Hb Hv Hne.
  pose proof (lookup_lt_Some _ _ _ Ha) as Hlt.
  set (s1 := enter_state u a cl da v s).
  set (ta := mkToken u v (bindings s !! (u, v)) false).
  assert (heap s1 !! b = Some (OInstance cl db)) as Hb1.
  { apply enter_state_framed_outside; [done|congruence|done]. }
  pose proof (enter_state_can_exit u a cl da v s Ha Hv) as Hca. fold s1 ta in Hca.
  set (s2 := enter_state u b cl db v s1).
  set (tb := mkToken u v (bindings s1 !! (u, v)) false).
  pose proof (enter_state_can_exit u b cl db v s1 Hb1 Hv) as Hcb. fold s2 tb in Hcb.
  assert (length (heap s1) = S (length (heap s))) as Hlen by apply enter_state_length.
  pose proof (can_exit_enter_other _ _ _ _ _ _ u b cl db v Hca Hb1 Hne) as Hca2.
  fold s2 in Hca2.
  set (s3 := exit_state u v (length (heap s1)) tb s2).
  assert (can_exit u a s3 v (length (heap s)) ta) as Hca3.
  { apply can_exit_exit_other with (b := b); [done..|lia]. }
  assert (bindings s3 = bindings s1) as Hb3 by apply restore_insert.
  exists s2, s3, (exit_state u v (length (heap s)) ta s3). split_and!.
  - unfold bind. rewrite (enter_ok _ _ _ _ _ _ Ha Hv). fold s1.
    by rewrite (enter_ok _ _ _ _ _ _ Hb1 Hv).
  - cbn. by rewrite lookup_insert_eq.
  - by apply exit_ok.
  - rewrite Hb3. cbn. by rewrite lookup_insert_eq.
  - by apply exit_ok.
  - cbn -[s3]. rewrite Hb3. apply restore_insert.
Qed.

Lemma X8_inner_scope_shadows_outer_witness :
  ∃ s2 s3,
    (ContextModel_enter 0 2 >> ContextModel_enter 0 5) sample = (s2, Ok 5) ∧
    ContextModel_exit 0 5 s2 = (s3, Ok tt) ∧
    bindings s3 !! (0, var_flow_run) = Some (VRef 2).
Proof.
  destruct sample_objects as (d2 & d5 & d6 & H2 & H5 & H6).
  destruct (X8_inner_scope_shadows_outer 0 2 5 FlowRunContext d2 d5 var_flow_run
              sample H2 H5 eq_refl)
    as (s2 & s3 & s4 & Hee & _ & Hex & Hb & _); [lia|].
  exists s2, s3. split_and!; assumption.
Defined.

(** X9: two units cannot be inside a scope of the same instance at once.
    When a second unit enters an instance that a first unit has entered, the
    first unit can no longer leave (its exit raises the different-context
    error and changes nothing); the second unit leaves normally; after that
    the exit of the first unit raises the used-token error, and the first
    unit stays bound to the instance. *)
Theorem X9_one_unit_per_instance
    (u u' : nat) (self : ref) (cl : class) (d : gmap string value)
    (v : ContextVar) (s : state) :
  heap s !! self = Some (OInstance cl d) →
  class_var cl = Some v →
  u ≠ u' →
  ∃ s2 s3,
    (ContextModel_enter u self >> ContextModel_enter u' self) s = (s2, Ok self) ∧
    ContextModel_exit u self s2 = (s2, Raised other_context_error) ∧
    ContextModel_exit u' self s2 = (s3, Ok tt) ∧
    bindings s3 !! (u', v) = bindings s !! (u', v) ∧
    ContextModel_exit u self s3 = (s3, Raised token_used_error) ∧
    bindings s3 !! (u, v) = Some (VRef self).
Proof.
  intros Hs Hv Hne.
  set (s1 := enter_state u self cl d v s).
  destruct (enter_state_mono u self cl d v s Hs _ _ _ Hs) as [d1 Hs1]. fold s1 in Hs1.
  set (s2 := enter_state u' self cl d1 v s1).
  set (t2 := mkToken u' v (bindings s1 !! (u', v)) false).
  pose proof (enter_state_can_exit u' self cl d1 v s1 Hs1 Hv) as Hc. fold s2 t2 in Hc.
  set (s3 := exit_state u' v (length (heap s1)) t2 s2).
  destruct Hc as (cl2 & d2 & Hs2 & Hv2 & Hd2 & Ha2 & Hrest).
  assert (can_exit u' self s2 v (length (heap s1)) t2) as Hc by (exists cl2, d2; done).
  assert (heap s3 !! self = Some (OInstance cl2 d2)) as Hs3
    by (eapply exit_state_inst; eauto).
  assert (heap s3 !! length (heap s1) = Some (OToken (consumed t2))) as Ha3.
  { cbn. apply list_lookup_insert_eq. by eapply lookup_lt_Some. }
  exists s2, s3. split_and!.
  - unfold bind. rewrite (enter_ok _ _ _ _ _ _ Hs Hv). fold s1.
    by rewrite (enter_ok _ _ _ _ _ _ Hs1 Hv).
  - eapply exit_other_context; [exact Hc|done].
  - by apply exit_ok.
  - unfold s3, exit_state, t2. cbn -[s1]. rewrite restore_insert. cbn.
    rewrite lookup_insert_ne; [done|]. congruence.
  - eapply exit_used; eauto.
  - unfold s3, exit_state, restore, t2. cbn.
    rewrite lookup_insert_ne by congruence.
    destruct (bindings s !! (u', v)).
    + rewrite lookup_insert_ne by congruence. rewrite lookup_insert_ne by congruence.
      by rewrite lookup_insert_eq.
    + rewrite lookup_delete_ne by congruence. rewrite lookup_insert_ne by congruence.
      by rewrite lookup_insert_eq.
Qed.

Lemma X9_one_unit_per_instance_witness :
  ∃ s2 s3,
    (ContextModel_enter 0 2 >> ContextModel_enter 1 2) sample = (s2, Ok 2) ∧
    ContextModel_exit 0 2 s2 = (s2, Raised other_context_error) ∧
    ContextModel_exit 1 2 s2 = (s3, Ok tt) ∧
    ContextModel_exit 0 2 s3 = (s3, Raised token_used_error).
Proof.
  destruct sample_objects as (d2 & d5 & d6 & H2 & H5 & H6).
  destruct (X9_one_unit_per_instance 0 1 2 FlowRunContext d2 var_flow_run sample H2 eq_refl)
    as (s2 & s3 & Hee & Hx & Hy & _ & Hz & _); [lia|].
  exists s2, s3. split_and!; assumption.
Defined.

(** ** More on construction *)

Lemma field_step_errors kwargs a f s s' a' :
  pydantic.field_step kwargs a f s = (s', Ok a') →
  (∀ e, e ∈ a.2 → e ∈ a'.2) ∧
  (pydantic.field_default f = Required → kwargs !! pydantic.name f = None →
   (pydantic.name f, "value_error.missing") ∈ a'.2).
Proof.
  unfold pydantic.field_step. destruct a as [values errors]. intros H.
  destruct (kwargs !! pydantic.name f) as [x|].
  - unfold bind in H. destruct (pydantic.validate _ _ s) as [s1 [[w|]|e]];
      unfold ret in H; simplify_eq; cbn; (split; [|done]); intros e0 He0; [done|].
    apply elem_of_app. by left.
  - destruct (pydantic.field_default f) as [|w|fa]; unfold ret in H.
    + simplify_eq. cbn. split.
      * intros e0 He0. apply elem_of_app. by left.
      * intros _ _. apply elem_of_app. right. by apply list_elem_of_singleton.
    + simplify_eq. by cbn.
    + unfold bind in H. destruct (pydantic.call_factory fa s) as [s1 [w|e]];
        simplify_eq. by cbn.
Qed.

Lemma validate_fields_errors_mono kwargs fs a s s' a' :
  pydantic.validate_fields kwargs fs a s = (s', Ok a') →
  ∀ e, e ∈ a.2 → e ∈ a'.2.
Proof.
  revert a s. induction fs as [|f fs IH]; intros a s H e He; cbn in H.
  - unfold ret in H. by simplify_eq.
  - unfold bind in H.
    destruct (pydantic.field_step kwargs a f s) as [s1 [a1|e1]] eqn:Hstep; [|done].
    eapply IH; [done|]. by apply (field_step_errors _ _ _ _ _ _ Hstep).
Qed.

Lemma validate_fields_missing kwargs fs a s s' a' f :
  pydantic.validate_fields kwargs fs a s = (s', Ok a') →
  f ∈ fs →
  pydantic.field_default f = Required →
  kwargs !! pydantic.name f = None →
  (pydantic.name f, "value_error.missing") ∈ a'.2.
Proof.
  revert a s. induction fs as [|f0 fs IH]; intros a s H Hin Hreq Hkw; cbn in H.
  - by apply elem_of_nil in Hin.
  - unfold bind in H.
    destruct (pydantic.field_step kwargs a f0 s) as [s1 [a1|e1]] eqn:Hstep; [|done].
    apply elem_of_cons in Hin as [->|Hin].
    + eapply validate_fields_errors_mono; [done|].
      by apply (field_step_errors _ _ _ _ _ _ Hstep).
    + eauto.
Qed.

(** X10: a required field cannot be left out. Constructing a context
    without a keyword for a field that has no default fails with a
    validation error that reports that field as missing. *)
Theorem X10_required_field_missing
    (c : class) (f : ModelField) (kwargs : gmap string value) (s : state) :
  f ∈ fields c →
  pydantic.field_default f = Required →
  kwargs !! pydantic.name f = None →
  ∃ errors, (new c kwargs s).2 = Raised (ValidationError errors) ∧
            (pydantic.name f, "value_error.missing") ∈ errors.
Proof.
  intros Hin Hreq Hkw.
  unfold new, pydantic.init, pydantic.validate_model, bind.
  destruct (Total_validate_fields kwargs (fields c) (∅, []) s)
    as (s' & [values errors] & Hv).
  rewrite Hv. cbn.
  pose proof (validate_fields_missing _ _ _ _ _ _ f Hv Hin Hreq Hkw) as Hmiss.
  cbn in Hmiss.
  assert ((pydantic.name f, "value_error.missing") ∈
            errors ++ ((λ k, (k, "value_error.extra")) <$>
                         pydantic.extra_keys (fields c) kwargs)) as Hin'.
  { apply elem_of_app. by left. }
  destruct (errors ++ _) as [|e l] eqn:Heq.
  - by apply elem_of_nil in Hin'.
  - cbn. eauto.
Qed.

Lemma X10_required_field_missing_witness :
  ∃ errors,
    (new TaskRunContext (delete "task_run_id" task_kwargs) empty_state).2 =
      Raised (ValidationError errors) ∧
    ("task_run_id", "value_error.missing") ∈ errors.
Proof.
  apply (X10_required_field_missing TaskRunContext
           (mkField "task_run_id" TUUID Required)).
  - apply (bool_decide_unpack _). vm_compute. exact I.
  - reflexivity.
  - vm_compute. reflexivity.
Defined.

Lemma new_FlowRunContext_eq flow client executor id s :
  new FlowRunContext (flow_run_kwargs flow client executor id) s =
    (set_heap (heap s ++
                 [OList []; OList [];
                  OInstance FlowRunContext
                    (flow_run_dict flow client executor id (clock s) (length (heap s)))])
              s,
     Ok (S (S (length (heap s))))).
Proof.
  assert (pydantic.extra_keys (fields FlowRunContext)
            (flow_run_kwargs flow client executor id) = []) as Hex.
  { unfold pydantic.extra_keys, flow_run_kwargs. rewrite !dom_insert_L, dom_empty_L.
    vm_compute. reflexivity. }
  unfold new, pydantic.init, pydantic.validate_model. rewrite Hex.
  unfold flow_run_kwargs.
  cbn [fields pydantic.validate_fields].
  unfold bind, pydantic.field_step.
  cbn [pydantic.name pydantic.field_default pydantic.outer_type start_time].
  simplify_map_eq. cbn.
  unfold alloc, set_heap, flow_run_dict. cbn.
  rewrite !length_app. cbn. rewrite <- !app_assoc. cbn.
  rewrite !Nat.add_1_r. reflexivity.
Qed.

Lemma list_field_mono s s' r k l :
  (∀ a o, heap s !! a = Some o → heap s' !! a = Some o) →
  list_field s r k = Some l → list_field s' r k = Some l.
Proof.
  intros Hm. unfold list_field.
  destruct (heap s !! r) as [[c d| | |]|] eqn:Hr; try done.
  rewrite (Hm _ _ Hr).
  destruct (d !! k) as [[| | | |a]|]; try done.
  destruct (heap s !! a) as [[| |l0|]|] eqn:Ha; try done.
  by rewrite (Hm _ _ Ha).
Qed.

Lemma lookup_app_three {A} (l : list A) (x y z : A) :
  (l ++ [x; y; z]) !! length l = Some x ∧
  (l ++ [x; y; z]) !! S (length l) = Some y ∧
  (l ++ [x; y; z]) !! S (S (length l)) = Some z.
Proof.
  split_and!.
  - by apply list_lookup_middle.
  - rewrite lookup_app_r by lia. by replace (S (length l) - length l) with 1 by lia.
  - rewrite lookup_app_r by lia. by replace (S (S (length l)) - length l) with 2 by lia.
Qed.

(** X11: the accumulators of a flow run context start empty and belong to
    it alone. A flow run context constructed from the four required
    arguments has an empty [task_run_futures] and an empty [subflow_states];
    constructing it changes no list of the contexts that exist already;
    appending a future to it makes [task_run_futures] that one element,
    leaves [subflow_states] empty and again changes no list of any other
    context. *)
Theorem X11_accumulators_start_empty_and_private
    (flow client executor : nat) (id : N) (s : state) :
  ∃ s1 r,
    new FlowRunContext (flow_run_kwargs flow client executor id) s = (s1, Ok r) ∧
    list_field s1 r "task_run_futures" = Some [] ∧
    list_field s1 r "subflow_states" = Some [] ∧
    (∀ r' k l, list_field s r' k = Some l → list_field s1 r' k = Some l) ∧
    ∀ x, ∃ s2,
      append_future r x s1 = (s2, Ok tt) ∧
      list_field s2 r "task_run_futures" = Some [x] ∧
      list_field s2 r "subflow_states" = Some [] ∧
      (∀ r' k l, list_field s r' k = Some l → list_field s2 r' k = Some l).
Proof.
  rewrite new_FlowRunContext_eq.
  set (n := length (heap s)).
  set (d := flow_run_dict flow client executor id (clock s) n).
  set (s1 := set_heap (heap s ++ [OList []; OList []; OInstance FlowRunContext d]) s).
  destruct (lookup_app_three (heap s) (OList []) (OList [])
              (OInstance FlowRunContext d)) as (H0 & H1 & H2).
  fold n in H0, H1, H2.
  assert (d !! "task_run_futures" = Some (VRef n)) as Hdf
    by (unfold d, flow_run_dict; by simplify_map_eq).
  assert (d !! "subflow_states" = Some (VRef (S n))) as Hds
    by (unfold d, flow_run_dict; by simplify_map_eq).
  assert (∀ a o, heap s !! a = Some o → heap s1 !! a = Some o) as Hm1.
  { intros a o Ha. cbn. by apply lookup_app_l_Some. }
  exists s1, (S (S n)). split_and!.
  - done.
  - unfold list_field. cbn. by rewrite H2, Hdf, H0.
  - unfold list_field. cbn. by rewrite H2, Hds, H1.
  - intros r' k l. by apply list_field_mono.
  - intros x.
    set (s2 := set_heap (<[n := OList ([] ++ [x])]> (heap s1)) s1).
    assert (n < length (heap s1)) as Hlt by (by eapply lookup_lt_Some).
    exists s2. split_and!.
    + unfold append_future, getattr, bind. cbn. rewrite H2, Hdf.
      unfold list_append, store. cbn. by rewrite H0.
    + unfold list_field. cbn -[s1].
      rewrite list_lookup_insert_ne by lia.
      change (heap s1 !! S (S n)) with ((heap s ++ [OList []; OList [];
                OInstance FlowRunContext d]) !! S (S n)).
      rewrite H2, Hdf. by rewrite list_lookup_insert_eq.
    + unfold list_field. cbn -[s1].
      rewrite list_lookup_insert_ne by lia.
      change (heap s1 !! S (S n)) with ((heap s ++ [OList []; OList [];
                OInstance FlowRunContext d]) !! S (S n)).
      rewrite H2, Hds. rewrite list_lookup_insert_ne by lia.
      change (heap s1 !! S n) with ((heap s ++ [OList []; OList [];
                OInstance FlowRunContext d]) !! S n).
      by rewrite H1.
    + intros r' k l. apply list_field_mono. intros a o Ha.
      cbn -[s1]. rewrite list_lookup_insert_ne.
      * by apply Hm1.
      * apply lookup_lt_Some in Ha. unfold n. lia.
Qed.

(** ** What stays true while code runs *)

(** X12: [get] honours its return type. From a well-formed state, whatever
    code has run since, [get()] of a class that declares a variable returns
    either [None] or an instance of that very class. *)
Theorem X12_get_returns_none_or_instance
    (u u' : nat) (p : stmt) (c : class) (v : ContextVar) (s : state) :
  wf s →
  class_var c = Some v →
  ∃ x, ContextModel_get u' c (exec u p s).1 = ((exec u p s).1, Ok x) ∧
       (x = VNone ∨
        ∃ a d, x = VRef a ∧ heap (exec u p s).1 !! a = Some (OInstance c d)).
Proof.
  intros Hwf Hv.
  pose proof (exec_robust wf wf_robust u p s Hwf) as [Hwb _].
  rewrite ContextModel_get_eq, Hv.
  destruct (bindings (exec u p s).1 !! (u', v)) as [x|] eqn:Hx; cbn.
  - exists x. split; [done|]. right.
    destruct (Hwb _ _ _ Hx) as (a & c' & d & -> & Ha & Hc').
    exists a, d. split; [done|].
    assert (c' = c) as -> by (destruct c, c'; cbn in *; congruence).
    done.
  - exists VNone. by split; [|left].
Qed.

Lemma X12_get_returns_none_or_instance_witness :
  ∃ x, ContextModel_get 0 FlowRunContext (exec 0 (With 2 (With 2 Pass)) sample).1 =
         ((exec 0 (With 2 (With 2 Pass)) sample).1, Ok x) ∧
       (x = VNone ∨
        ∃ a d, x = VRef a ∧
               heap (exec 0 (With 2 (With 2 Pass)) sample).1 !! a =
                 Some (OInstance FlowRunContext d)).
Proof.
  apply (X12_get_returns_none_or_instance 0 0 _ FlowRunContext var_flow_run sample wf_sample).
  reflexivity.
Defined.

(** X13: no attribute of a context is ever rebound, the token slot apart.
    Construction, lookups, scope operations, attribute assignments (which
    are refused) and in-place changes of lists and sets, in any combination
    and however they end, leave every attribute of every existing instance
    bound to the value it was bound to: a datetime, a UUID or a handle stays
    the same, and a list or set field keeps referring to the same list or
    set object, whose contents are not part of this statement. *)
Theorem X13_fields_never_change
    (r : ref) (c : class) (k : string) (x : value) (u : nat) (p : stmt) (s : state) :
  k ≠ "__token" →
  has_field r c k x s →
  has_field r c k x (exec u p s).1.
Proof.
  intros Hk H. by apply exec_robust; [apply has_field_robust|].
Qed.

Lemma X13_fields_never_change_witness :
  has_field 2 FlowRunContext "flow_run_id" (VUUID 7)
    (exec 0 (With 2 (Seq (Do (SetAttr 2 "flow_run_id" (VUUID 9)))
                         (With 2 (Raise (UserError 1))))) sample).1.
Proof.
  apply X13_fields_never_change; [discriminate|].
  vm_compute. eexists. split; reflexivity.
Defined.

(** ** [TagsContext.get] inside a scope, and [start_time] passed in *)

(** X14: inside a scope of a [TagsContext], [TagsContext.get()] returns
    that instance, and the call changes no binding, no existing instance and
    no token. *)
Theorem X14_TagsContext_get_in_scope
    (u : nat) (self : ref) (d : gmap string value) (s : state) :
  heap s !! self = Some (OInstance TagsContext d) →
  ∃ s1 s2,
    ContextModel_enter u self s = (s1, Ok self) ∧
    TagsContext_get u s1 = (s2, Ok (VRef self)) ∧
    benign s1 s2.
Proof.
  intros Hs.
  exists (enter_state u self TagsContext d var_tags s). eexists. split_and!.
  - by apply enter_ok.
  - rewrite TagsContext_get_eq. cbn [bindings enter_state].
    by rewrite lookup_insert_eq.
  - pose proof (Benign_tags_get u (enter_state u self TagsContext d var_tags s)) as H.
    by rewrite TagsContext_get_eq in H.
Qed.

Lemma X14_TagsContext_get_in_scope_witness :
  let s := (new TagsContext ∅ empty_state).1 in
  ∃ s1 s2,
    ContextModel_enter 0 1 s = (s1, Ok 1) ∧
    TagsContext_get 0 s1 = (s2, Ok (VRef 1)).
Proof.
  cbn zeta.
  destruct (X14_TagsContext_get_in_scope 0 1 (default_tags_dict 0)
              (new TagsContext ∅ empty_state).1)
    as (s1 & s2 & He & Hg & _); [vm_compute; reflexivity|].
  exists s1, s2. split; assumption.
Defined.

Lemma new_start_time_given c rest kwargs t s s1 r :
  fields c = start_time :: rest →
  "start_time" ∉ pydantic.name <$> rest →
  kwargs !! "start_time" = Some (VDateTime t) →
  new c kwargs s = (s1, Ok r) →
  has_field r c "start_time" (VDateTime t) s1.
Proof.
  intros Hf Hrest Hkw H.
  unfold new, pydantic.init, pydantic.validate_model in H. rewrite Hf in H.
  unfold bind in H. cbn in H. rewrite Hkw in H. cbn in H.
  destruct (pydantic.validate_fields kwargs rest _ s) as [s' [[values errors]|e]] eqn:Hv;
    [|done].
  apply validate_fields_keeps with (k := "start_time") in Hv; [|done].
  cbn in Hv, H. rewrite lookup_insert_eq in Hv.
  destruct (errors ++ _) as [|? ?]; cbn in H; [|done].
  injection H as <- <-. exists values. split; [|done].
  cbn. by apply list_lookup_middle.
Qed.

(** X15: the clock is only the default of [start_time]. A run context
    constructed with a [start_time] keyword that is a datetime carries that
    datetime, whatever the clock reads. *)
Theorem X15_start_time_can_be_passed
    (c : class) (kwargs : gmap string value) (t : Z) (s s1 : state) (r : ref) :
  start_time ∈ fields c →
  kwargs !! "start_time" = Some (VDateTime t) →
  new c kwargs s = (s1, Ok r) →
  has_field r c "start_time" (VDateTime t) s1.
Proof.
  intros Hin Hkw Hnew.
  assert (∃ rest, fields c = start_time :: rest ∧
                  "start_time" ∉ pydantic.name <$> rest) as (rest & Hf & Hrest).
  { destruct c; cbn in Hin.
    - by apply elem_of_nil in Hin.
    - eexists. split; [reflexivity|]. by apply not_elem_of_nil.
    - eexists. split; [reflexivity|]. apply (bool_decide_unpack _). vm_compute. exact I.
    - eexists. split; [reflexivity|]. apply (bool_decide_unpack _). vm_compute. exact I.
    - apply list_elem_of_singleton in Hin. discriminate Hin. }
  eapply new_start_time_given; eauto.
Qed.

Lemma X15_start_time_can_be_passed_witness :
  let kwargs := <["start_time" := VDateTime 42]> task_kwargs in
  has_field 0 TaskRunContext "start_time" (VDateTime 42)
    (new TaskRunContext kwargs (mkState ∅ [] 100)).1.
Proof.
  cbn zeta.
  apply (X15_start_time_can_be_passed TaskRunContext
           (<["start_time" := VDateTime 42]> task_kwargs) 42%Z (mkState ∅ [] 100)).
  - apply (bool_decide_unpack _). vm_compute. exact I.
  - vm_compute. reflexivity.
  - vm_compute. reflexivity.
Defined.
